(** * The OrderedConsumer churn simulator (simulator.ts)

    A shallow embedding of the simulator: start-up (readiness polling, stream
    provisioning, [main]) as code in a small state-and-exception monad run
    against the answers of the messaging platform, and the churn engine (the
    concurrently running [runConsumerLoop]s, the statistics and [printStats])
    as a transition system whose steps are the pieces of code that run between
    two suspension points of the JavaScript event loop.

    The event loop is modelled as far as the program depends on it. An
    [await] suspends the async function; when the awaited promise settles, the
    rest of the function is queued as a promise job. Promise jobs run before
    the event loop starts its next task, so a timer callback (the end of a
    [sleep], [printStats]) never runs while a continuation is queued. Answers
    of the platform arrive at any time, and one task may settle several
    promises, so the continuations of different loops interleave freely. *)

From stdpp Require Import gmap strings list fin_maps pretty.
From Stdlib Require Import ZArith Lia.

Local Open Scope string_scope.
Local Open Scope list_scope.
Local Open Scope nat_scope.
Local Open Scope stdpp_scope.

(** ** Values shared by both parts *)

(** What a [catch (e)] clause sees of the error: [e.message] ([None] when it is
    undefined) and [e.code] when it is a string. *)
Record JsError : Type := mkError {
  message : option string;
  code : option string;
}.

(** [process.env] after the defaults and [parseInt] of lines 3-10. A
    NUM_CONSUMERS that parses to a negative number or NaN starts no loop, like
    0. *)
Record Config : Type := mkConfig {
  NATS_URL : string;
  NATS_USER : string;
  NATS_PASS : string;
  MODE : string;
  STREAM_NAME : string;
  NUM_CONSUMERS : nat;
  CONSUMER_LIFETIME_MS : Z;
  RECONNECT_DELAY_MS : Z;
}.

Definition default_config : Config :=
  {| NATS_URL := "nats://localhost:4222"; NATS_USER := ""; NATS_PASS := "";
     MODE := "consumer"; STREAM_NAME := "events"; NUM_CONSUMERS := 20;
     CONSUMER_LIFETIME_MS := 5000; RECONNECT_DELAY_MS := 100 |}.

Definition SUBJECTS : list string :=
  [ "events.sensor.station1.>";
    "events.sensor.station2.>";
    "events.sensor.station3.>";
    "events.telemetry.module1.>";
    "events.telemetry.module2.>";
    "events.>" ].

(** The argument of [jsm.streams.add]. *)
Record StreamConfig : Type := mkStreamConfig {
  sc_name : string;
  sc_subjects : list string;
  sc_retention : string;
  sc_max_msgs : Z;
  sc_max_bytes : Z;
  sc_max_age : Z;
  sc_storage : string;
  sc_num_replicas : Z;
  sc_discard : string;
}.

(** The lines of [printStats]. *)
Record Stats : Type := mkStats {
  st_active : nat;
  st_created : nat;
  st_closed : nat;
  st_reconnects : nat;
  st_errors : nat;
  st_leaked : Z;
}.

(** Console output, one constructor per [console.log] / [console.error]
    call site, carrying the values interpolated into the line; the eight
    lines [main] prints first are one [LineBanner], the lines of [printStats]
    one [LineStats]. Timestamps are left out. *)
Inductive console_line : Type :=
  | LineWaiting (attempt maxRetries : nat)
  | LineStreamCreated (name : string)
  | LineStreamExists (name : string)
  | LineStreamAttemptFailed (attempt : nat) (msg : option string)
  | LineCreateError (n : nat) (msg : option string)
  | LineStats (st : Stats)
  | LineBanner (cfg : Config)
  | LineConnected
  | LinePublisherMode
  | LineWaitingCluster
  | LineNotReady
  | LineReady
  | LineStarting (n : nat)
  | LineFatal (e : JsError).

(** What the program does to the outside world, in order. *)
Inductive effect : Type :=
  | Console (l : console_line)
  | Sleep (ms : Z)
  | Connect (user : option (string * string))
  | JetstreamManager
  | StreamsListNext
  | StreamsAdd (sc : StreamConfig)
  | Subscribe (subject : string)
  | Destroy (handle : nat)
  | InstallPublisherTimers.

(** [haystack.includes(needle)] *)
Fixpoint includes (haystack needle : string) : bool :=
  String.prefix needle haystack ||
  match haystack with
  | EmptyString => false
  | String _ rest => includes rest needle
  end.

(** ** Start-up: a state-and-exception monad *)

(** How the evaluation of an async function ends. *)
Inductive completion (A : Type) : Type :=
  | Returned (a : A)
  | Thrown (e : JsError)
  | Exited (exit_code : Z).
Arguments Returned {A} a.
Arguments Thrown {A} e.
Arguments Exited {A} exit_code.

(** The answers of the platform: [None] when the awaited promise resolves,
    [Some e] when it rejects with [e]. The k-th call of [streams.list().next()]
    gets [list_reply k], the k-th call of [streams.add] gets [add_reply k]. *)
Record Platform : Type := mkPlatform {
  connect_reply : option JsError;
  manager_reply : option JsError;
  list_reply : nat -> option JsError;
  add_reply : nat -> option JsError;
}.

Record world : Type := mkWorld {
  lists_made : nat;
  adds_made : nat;
  effects : list effect;
}.

Definition world0 : world := {| lists_made := 0; adds_made := 0; effects := [] |}.

Definition M (A : Type) : Type := world -> completion A * world.

Definition ret {A} (a : A) : M A := fun w => (Returned a, w).

Definition bind {A B} (m : M A) (k : A -> M B) : M B :=
  fun w =>
    match m w with
    | (Returned a, w') => k a w'
    | (Thrown e, w') => (Thrown e, w')
    | (Exited c, w') => (Exited c, w')
    end.

Notation "x <- m ;; k" := (bind m (fun x => k))
  (at level 100, m at next level, right associativity).
Notation "m ;; k" := (bind m (fun _ => k))
  (at level 100, right associativity).

Definition process_exit {A} (c : Z) : M A := fun w => (Exited c, w).

(** [try { body } catch (e) { handler e }]; [process.exit] is not caught. *)
Definition try_catch {A} (body : M A) (handler : JsError -> M A) : M A :=
  fun w =>
    match body w with
    | (Thrown e, w') => handler e w'
    | r => r
    end.

Definition emit (e : effect) : M unit :=
  fun w => (Returned tt,
            {| lists_made := lists_made w; adds_made := adds_made w;
               effects := effects w ++ [e] |}).

Definition console (l : console_line) : M unit := emit (Console l).
Definition sleep (ms : Z) : M unit := emit (Sleep ms).

Definition settle (r : option JsError) : M unit :=
  fun w => match r with None => (Returned tt, w) | Some e => (Thrown e, w) end.

(** [for (let i = start; i < start + n; i++) { body i }] followed by [after],
    where the body either returns from the enclosing function ([Some a]) or
    falls through to the next iteration ([None]). *)
Fixpoint for_loop {A} (n i : nat) (body : nat -> M (option A)) (after : M A) : M A :=
  match n with
  | O => after
  | S n' =>
      r <- body i ;;
      match r with
      | Some a => ret a
      | None => for_loop n' (S i) body after
      end
  end.

Section Startup.

Variable cfg : Config.
Variable platform : Platform.

Definition await_connect (user : option (string * string)) : M unit :=
  emit (Connect user) ;; settle (connect_reply platform).

Definition await_jetstreamManager : M unit :=
  emit JetstreamManager ;; settle (manager_reply platform).

Definition await_streams_list_next : M unit :=
  fun w =>
    let w' := {| lists_made := S (lists_made w); adds_made := adds_made w;
                 effects := effects w ++ [StreamsListNext] |} in
    settle (list_reply platform (lists_made w)) w'.

Definition await_streams_add (sc : StreamConfig) : M unit :=
  fun w =>
    let w' := {| lists_made := lists_made w; adds_made := S (adds_made w);
                 effects := effects w ++ [StreamsAdd sc] |} in
    settle (add_reply platform (adds_made w)) w'.

(** simulator.ts, lines 41-52 *)
Definition waitForJetStream_body (maxRetries i : nat) : M (option bool) :=
  try_catch
    (await_streams_list_next ;; ret (Some true))
    (fun _ => console (LineWaiting (i + 1) maxRetries) ;; sleep 2000 ;; ret None).

Definition waitForJetStream (maxRetries : nat) : M bool :=
  for_loop maxRetries 0 (waitForJetStream_body maxRetries) (ret false).

Definition stream_config : StreamConfig :=
  {| sc_name := STREAM_NAME cfg;
     sc_subjects := ["events.>"];
     sc_retention := "limits";
     sc_max_msgs := 10000000;
     sc_max_bytes := 1024 * 1024 * 1024;
     sc_max_age := 3600 * 1000000000 * 24;
     sc_storage := "file";
     sc_num_replicas := 1;
     sc_discard := "old" |}.

(** [e.message?.includes("already in use") || e.code === "10058"] *)
Definition already_exists (e : JsError) : bool :=
  match message e with
  | Some m => includes m "already in use"
  | None => false
  end || bool_decide (code e = Some "10058").

(** simulator.ts, lines 54-79 *)
Definition createStream_body (attempt : nat) : M (option unit) :=
  try_catch
    (await_streams_add stream_config ;;
     console (LineStreamCreated (STREAM_NAME cfg)) ;;
     ret (Some tt))
    (fun e =>
       if already_exists e then
         console (LineStreamExists (STREAM_NAME cfg)) ;; ret (Some tt)
       else
         console (LineStreamAttemptFailed (attempt + 1) (message e)) ;;
         sleep 3000 ;;
         ret None).

Definition createStream : M unit :=
  for_loop 10 0 createStream_body (ret tt).

Definition connect_user : option (string * string) :=
  if bool_decide (NATS_USER cfg = "") then None
  else Some (NATS_USER cfg, NATS_PASS cfg).

(** What [main] has set in motion when it reaches [await nc.closed()]. *)
Inductive running : Type :=
  | Publishing
  | Churning.

(** simulator.ts, lines 200-242: [main] up to the point where it starts the
    consumer loops. The launch loop of lines 243-246, each iteration with its
    [sleep(100)], and the two timers of lines 248-249 are the [Launch],
    [InstallTimers] and [Tick] inputs of the churn engine below. *)
Definition main : M running :=
  console (LineBanner cfg) ;;
  sleep 10000 ;;
  await_connect connect_user ;;
  console LineConnected ;;
  if bool_decide (MODE cfg = "publisher") then
    console LinePublisherMode ;;
    emit InstallPublisherTimers ;;
    ret Publishing
  else
    await_jetstreamManager ;;
    console LineWaitingCluster ;;
    ready <- waitForJetStream 30 ;;
    (if ready : bool then ret tt
     else console LineNotReady ;; process_exit 1) ;;
    console LineReady ;;
    createStream ;;
    console (LineStarting (NUM_CONSUMERS cfg)) ;;
    ret Churning.

(** simulator.ts, lines 255-258: [main().catch(...)] *)
Definition top_level : M running :=
  try_catch main (fun e => console (LineFatal e) ;; process_exit 1).

End Startup.

(** ** The churn engine *)

(** simulator.ts, lines 12-18. [subscription] is the handle the platform
    returned, [None] for null. *)
Record ConsumerInfo : Type := mkInfo {
  id : string;
  subject : string;
  createdAt : Z;
  subscription : option nat;
  messageCount : nat;
}.

(** Where a [runConsumerLoop] is suspended. Each stage carries the loop's
    local variable [info], a reference into the heap of [ConsumerInfo]
    objects. [AfterCreate] and [AfterClose] are the two points where the
    awaited async function has returned and the continuation of the loop is
    queued as a promise job; at the other four the loop waits for a timer or
    for the platform. *)
Inductive stage : Type :=
  | AwaitSubscribe (info : nat)   (* line 95, inside createOrderedConsumer *)
  | AfterCreate (info : nat)      (* line 130, createOrderedConsumer has returned *)
  | Lifetime (info : nat)         (* line 133 *)
  | AwaitDestroy (info : nat)     (* line 119, inside closeConsumer *)
  | AfterClose (info : nat)       (* line 135, closeConsumer has returned *)
  | Cooldown.                     (* line 139 *)

(** The module-level variables of lines 20-24, the heap of [ConsumerInfo]
    objects ever allocated (a reference is an index), one [stage] per started
    loop (the index is the loop's [consumerId]) and whether the timers of
    [printStats] are installed. *)
Record state : Type := mkState {
  heap : list ConsumerInfo;
  activeConsumers : gmap string nat;
  totalCreated : nat;
  totalClosed : nat;
  totalReconnects : nat;
  createErrors : nat;
  loops : list stage;
  reporting : bool;
}.

Definition init : state :=
  {| heap := []; activeConsumers := ∅; totalCreated := 0; totalClosed := 0;
     totalReconnects := 0; createErrors := 0; loops := []; reporting := false |}.

Definition with_heap (h : list ConsumerInfo) (s : state) : state :=
  mkState h (activeConsumers s) (totalCreated s) (totalClosed s)
          (totalReconnects s) (createErrors s) (loops s) (reporting s).
Definition with_activeConsumers (m : gmap string nat) (s : state) : state :=
  mkState (heap s) m (totalCreated s) (totalClosed s)
          (totalReconnects s) (createErrors s) (loops s) (reporting s).
Definition with_totalCreated (n : nat) (s : state) : state :=
  mkState (heap s) (activeConsumers s) n (totalClosed s)
          (totalReconnects s) (createErrors s) (loops s) (reporting s).
Definition with_totalClosed (n : nat) (s : state) : state :=
  mkState (heap s) (activeConsumers s) (totalCreated s) n
          (totalReconnects s) (createErrors s) (loops s) (reporting s).
Definition with_totalReconnects (n : nat) (s : state) : state :=
  mkState (heap s) (activeConsumers s) (totalCreated s) (totalClosed s)
          n (createErrors s) (loops s) (reporting s).
Definition with_createErrors (n : nat) (s : state) : state :=
  mkState (heap s) (activeConsumers s) (totalCreated s) (totalClosed s)
          (totalReconnects s) n (loops s) (reporting s).
Definition with_loops (l : list stage) (s : state) : state :=
  mkState (heap s) (activeConsumers s) (totalCreated s) (totalClosed s)
          (totalReconnects s) (createErrors s) l (reporting s).
Definition with_reporting (b : bool) (s : state) : state :=
  mkState (heap s) (activeConsumers s) (totalCreated s) (totalClosed s)
          (totalReconnects s) (createErrors s) (loops s) b.

Definition set_subscription (sub : nat) (c : ConsumerInfo) : ConsumerInfo :=
  mkInfo (id c) (subject c) (createdAt c) (Some sub) (messageCount c).
Definition incr_messageCount (c : ConsumerInfo) : ConsumerInfo :=
  mkInfo (id c) (subject c) (createdAt c) (subscription c) (S (messageCount c)).

(** [info.subscription], read through the reference. *)
Definition sub_at (h : list ConsumerInfo) (info : nat) : option nat :=
  c ← h !! info; subscription c.
Definition subscription_of (s : state) (info : nat) : option nat :=
  sub_at (heap s) info.

(** What wakes a suspended loop up. *)
Inductive wakeup : Type :=
  | SubscribeSettled (r : nat + JsError)   (* js.subscribe resolved with a handle, or rejected *)
  | DestroySettled (r : option JsError)    (* destroy() resolved, or rejected *)
  | Continuation                           (* the queued continuation runs *)
  | TimerFired (now : Z).                  (* the sleep is over; [now] is the clock *)

(** The scheduler's choices. *)
Inductive input : Type :=
  | Launch (now : Z)               (* main, lines 243-246, one iteration *)
  | InstallTimers                  (* main, lines 248-249 *)
  | Wake (consumerId : nat) (w : wakeup)
  | Message (info : nat)           (* the detached task of lines 98-104 gets a message *)
  | Tick.                          (* a timer of printStats fires *)

(** [`consumer_${consumerId}`] and [SUBJECTS[consumerId % SUBJECTS.length]] *)
Definition consumer_id (consumerId : nat) : string :=
  "consumer_" +:+ pretty consumerId.
Definition consumer_subject (consumerId : nat) : string :=
  default "" (SUBJECTS !! (consumerId `mod` length SUBJECTS)).

(** simulator.ts, lines 81-95: [createOrderedConsumer] up to its await. *)
Definition createOrderedConsumer_call (now : Z) (id subject : string) (s : state)
  : nat * state * list effect :=
  let info := length (heap s) in
  (info,
   with_heap (heap s ++ [mkInfo id subject now None 0]) s,
   [Subscribe subject]).

(** simulator.ts, lines 95-113: [createOrderedConsumer] from its await on. *)
Definition createOrderedConsumer_resume (info : nat) (r : nat + JsError) (s : state)
  : state * list effect :=
  match r with
  | inl sub =>
      (with_totalCreated (S (totalCreated s))
         (with_heap (alter (set_subscription sub) info (heap s)) s),
       [])
  | inr e =>
      let s' := with_createErrors (S (createErrors s)) s in
      (s',
       if createErrors s' `mod` 10 =? 1
       then [Console (LineCreateError (createErrors s') (message e))]
       else [])
  end.

(** simulator.ts, lines 116-119: [closeConsumer] up to its await; [Some sub]
    when it calls [destroy], [None] when it returns at once. *)
Definition closeConsumer_call (info : nat) (s : state) : option nat :=
  subscription_of s info.

(** simulator.ts, lines 119-122: [closeConsumer] from its await on. *)
Definition closeConsumer_resume (r : option JsError) (s : state) : state :=
  match r with
  | None => with_totalClosed (S (totalClosed s)) s
  | Some _ => s
  end.

(** [totalCreated - totalClosed - activeConsumers.size], line 182 *)
Definition clientSideLeak (s : state) : Z :=
  Z.of_nat (totalCreated s) - Z.of_nat (totalClosed s)
  - Z.of_nat (size (activeConsumers s)).

(** simulator.ts, lines 180-198, without the two lines computed from the
    clock (uptime and churn rate). *)
Definition printStats (s : state) : list effect :=
  let leaked := clientSideLeak s in
  [Console (LineStats
     {| st_active := size (activeConsumers s);
        st_created := totalCreated s;
        st_closed := totalClosed s;
        st_reconnects := totalReconnects s;
        st_errors := createErrors s;
        st_leaked := leaked |})].

(** A loop whose awaited async function has returned has its continuation
    queued as a promise job, which keeps the event loop from starting the next
    task; at the other stages the loop waits for a timer or for the platform. *)
Definition awaits_task (st : stage) : bool :=
  match st with
  | AfterCreate _ | AfterClose _ => false
  | _ => true
  end.

Definition quiescent (s : state) : bool := forallb awaits_task (loops s).

Section Engine.

Variable cfg : Config.

(** simulator.ts, lines 125-141: the code [runConsumerLoop] runs from one
    suspension point to the next. *)
Definition runConsumerLoop_resume (consumerId : nat) (st : stage) (w : wakeup) (s : state)
  : option (stage * state * list effect) :=
  let subject := consumer_subject consumerId in
  let id := consumer_id consumerId in
  match st, w with
  | AwaitSubscribe info, SubscribeSettled r =>
      let '(s', out) := createOrderedConsumer_resume info r s in
      Some (AfterCreate info, s', out)
  | AfterCreate info, Continuation =>
      Some (Lifetime info,
            with_activeConsumers (<[id := info]> (activeConsumers s)) s,
            [Sleep (CONSUMER_LIFETIME_MS cfg)])
  | Lifetime info, TimerFired _ =>
      match closeConsumer_call info s with
      | Some sub => Some (AwaitDestroy info, s, [Destroy sub])
      | None => Some (AfterClose info, s, [])
      end
  | AwaitDestroy info, DestroySettled r =>
      Some (AfterClose info, closeConsumer_resume r s, [])
  | AfterClose info, Continuation =>
      Some (Cooldown,
            with_totalReconnects (S (totalReconnects s))
              (with_activeConsumers (delete id (activeConsumers s)) s),
            [Sleep (RECONNECT_DELAY_MS cfg)])
  | Cooldown, TimerFired now =>
      let '(info, s', out) := createOrderedConsumer_call now id subject s in
      Some (AwaitSubscribe info, s', out)
  | _, _ => None
  end.

(** Timer callbacks are tasks of the event loop: one starts only when no
    promise continuation is queued. *)
Definition is_task (w : wakeup) : bool :=
  match w with TimerFired _ => true | _ => false end.

(** One step of the program; [None] when the scheduler's choice is not
    possible in this state. *)
Definition step (inp : input) (s : state) : option (state * list effect) :=
  match inp with
  | Launch now =>
      let consumerId := length (loops s) in
      if quiescent s && (consumerId <? NUM_CONSUMERS cfg) then
        let '(info, s', out) :=
          createOrderedConsumer_call now (consumer_id consumerId)
                                     (consumer_subject consumerId) s in
        Some (with_loops (loops s' ++ [AwaitSubscribe info]) s', out ++ [Sleep 100])
      else None
  | InstallTimers =>
      if quiescent s && (length (loops s) =? NUM_CONSUMERS cfg) && negb (reporting s)
      then Some (with_reporting true s, [])
      else None
  | Wake consumerId w =>
      if is_task w && negb (quiescent s) then None
      else
        st ← loops s !! consumerId;
        '(st', s', out) ← runConsumerLoop_resume consumerId st w s;
        Some (with_loops (<[consumerId := st']> (loops s')) s', out)
  | Message info =>
      c ← heap s !! info;
      _ ← subscription c;
      Some (with_heap (<[info := incr_messageCount c]> (heap s)) s, [])
  | Tick =>
      if quiescent s && reporting s then Some (s, printStats s) else None
  end.

Fixpoint run (inps : list input) (s : state) : option (state * list effect) :=
  match inps with
  | [] => Some (s, [])
  | inp :: rest =>
      '(s1, out1) ← step inp s;
      '(s2, out2) ← run rest s1;
      Some (s2, out1 ++ out2)
  end.

End Engine.

(** Concrete inputs used by the examples below. *)
Definition cfg2 : Config :=
  {| NATS_URL := "nats://localhost:4222"; NATS_USER := ""; NATS_PASS := "";
     MODE := "consumer"; STREAM_NAME := "events"; NUM_CONSUMERS := 2;
     CONSUMER_LIFETIME_MS := 5000; RECONNECT_DELAY_MS := 100 |}.

Definition timeout_error : JsError := mkError (Some "timeout") (Some "TIMEOUT").
Definition in_use_error : JsError :=
  mkError (Some "stream name already in use") (Some "400").

(** ** Start-up: traces of the two retry loops *)

(** [k] failed readiness probes, the first of them being attempt [i]. *)
Fixpoint waiting_trace (maxRetries i k : nat) : list effect :=
  match k with
  | O => []
  | S k' =>
      [StreamsListNext; Console (LineWaiting (i + 1) maxRetries); Sleep 2000]
      ++ waiting_trace maxRetries (S i) k'
  end.

(** [k] failed [streams.add] calls, the first of them being attempt [i], the
    call number [n] of the platform; the log line shows the error's message. *)
Fixpoint failing_trace (cfg : Config) (platform : Platform) (n i k : nat) : list effect :=
  match k with
  | O => []
  | S k' =>
      [StreamsAdd (stream_config cfg);
       Console (LineStreamAttemptFailed (i + 1) (add_reply platform n ≫= message));
       Sleep 3000]
      ++ failing_trace cfg platform (S n) (S i) k'
  end.

(** The readiness probe answers within the first [n] calls. *)
Definition ready_within (platform : Platform) (n : nat) : bool :=
  existsb (fun k => bool_decide (list_reply platform k = None)) (seq 0 n).

(** The completion of the whole start-up, read off the platform's answers. *)
Definition startup_outcome (cfg : Config) (platform : Platform) : completion running :=
  match connect_reply platform with
  | Some _ => Exited 1
  | None =>
      if bool_decide (MODE cfg = "publisher") then Returned Publishing
      else match manager_reply platform with
           | Some _ => Exited 1
           | None => if ready_within platform 30 then Returned Churning else Exited 1
           end
  end.

(** The duplicate signal, as line 71 recognises it. *)
Definition duplicate_signal (e : JsError) : Prop :=
  (exists m, message e = Some m /\ includes m "already in use" = true)
  \/ code e = Some "10058".

(** The call number [n] of [streams.add] fails, and not with the duplicate
    signal. *)
Definition other_failure (platform : Platform) (n : nat) : Prop :=
  exists e, add_reply platform n = Some e /\ already_exists e = false.

(** ** The churn engine: the steps one by one, and what they preserve *)

(** The steps of [step], one constructor per path through the code. *)
Inductive transition (cfg : Config) (s : state) : input -> state -> list effect -> Prop :=
  | T_launch now :
      quiescent s = true ->
      length (loops s) < NUM_CONSUMERS cfg ->
      transition cfg s (Launch now)
        (with_loops (loops s ++ [AwaitSubscribe (length (heap s))])
           (with_heap
              (heap s ++ [mkInfo (consumer_id (length (loops s)))
                                 (consumer_subject (length (loops s))) now None 0])
              s))
        [Subscribe (consumer_subject (length (loops s))); Sleep 100]
  | T_install :
      quiescent s = true ->
      length (loops s) = NUM_CONSUMERS cfg ->
      reporting s = false ->
      transition cfg s InstallTimers (with_reporting true s) []
  | T_subscribed i info sub :
      loops s !! i = Some (AwaitSubscribe info) ->
      transition cfg s (Wake i (SubscribeSettled (inl sub)))
        (with_loops (<[i := AfterCreate info]> (loops s))
           (with_totalCreated (S (totalCreated s))
              (with_heap (alter (set_subscription sub) info (heap s)) s)))
        []
  | T_subscribe_failed i info e :
      loops s !! i = Some (AwaitSubscribe info) ->
      transition cfg s (Wake i (SubscribeSettled (inr e)))
        (with_loops (<[i := AfterCreate info]> (loops s))
           (with_createErrors (S (createErrors s)) s))
        (if S (createErrors s) `mod` 10 =? 1
         then [Console (LineCreateError (S (createErrors s)) (message e))]
         else [])
  | T_register i info :
      loops s !! i = Some (AfterCreate info) ->
      transition cfg s (Wake i Continuation)
        (with_loops (<[i := Lifetime info]> (loops s))
           (with_activeConsumers (<[consumer_id i := info]> (activeConsumers s)) s))
        [Sleep (CONSUMER_LIFETIME_MS cfg)]
  | T_destroy i info sub now :
      quiescent s = true ->
      loops s !! i = Some (Lifetime info) ->
      subscription_of s info = Some sub ->
      transition cfg s (Wake i (TimerFired now))
        (with_loops (<[i := AwaitDestroy info]> (loops s)) s)
        [Destroy sub]
  | T_nothing_to_destroy i info now :
      quiescent s = true ->
      loops s !! i = Some (Lifetime info) ->
      subscription_of s info = None ->
      transition cfg s (Wake i (TimerFired now))
        (with_loops (<[i := AfterClose info]> (loops s)) s)
        []
  | T_destroyed i info r :
      loops s !! i = Some (AwaitDestroy info) ->
      transition cfg s (Wake i (DestroySettled r))
        (with_loops (<[i := AfterClose info]> (loops s)) (closeConsumer_resume r s))
        []
  | T_unregister i info :
      loops s !! i = Some (AfterClose info) ->
      transition cfg s (Wake i Continuation)
        (with_loops (<[i := Cooldown]> (loops s))
           (with_totalReconnects (S (totalReconnects s))
              (with_activeConsumers (delete (consumer_id i) (activeConsumers s)) s)))
        [Sleep (RECONNECT_DELAY_MS cfg)]
  | T_recreate i now :
      quiescent s = true ->
      loops s !! i = Some Cooldown ->
      transition cfg s (Wake i (TimerFired now))
        (with_loops (<[i := AwaitSubscribe (length (heap s))]> (loops s))
           (with_heap
              (heap s ++ [mkInfo (consumer_id i) (consumer_subject i) now None 0]) s))
        [Subscribe (consumer_subject i)]
  | T_message info c sub :
      heap s !! info = Some c ->
      subscription c = Some sub ->
      transition cfg s (Message info)
        (with_heap (<[info := incr_messageCount c]> (heap s)) s)
        []
  | T_tick :
      quiescent s = true ->
      reporting s = true ->
      transition cfg s Tick s (printStats s).

(** The reference a suspended loop holds in [info]. *)
Definition ref_of (st : stage) : option nat :=
  match st with
  | AwaitSubscribe r | AfterCreate r | Lifetime r | AwaitDestroy r | AfterClose r => Some r
  | Cooldown => None
  end.

(** Between line 131 and line 136 the loop has its entry in [activeConsumers]. *)
Definition registered (st : stage) : bool :=
  match st with
  | Lifetime _ | AwaitDestroy _ | AfterClose _ => true
  | _ => false
  end.

(** The loop holds a subscription that was counted in [totalCreated] and whose
    [destroy] has not settled. *)
Definition holding (h : list ConsumerInfo) (st : stage) : bool :=
  match st with
  | AfterCreate r | Lifetime r | AwaitDestroy r => bool_decide (is_Some (sub_at h r))
  | _ => false
  end.

(** What the code guarantees about [info.subscription] at the two awaits on
    the platform. *)
Definition stage_sub (h : list ConsumerInfo) (st : stage) : Prop :=
  match st with
  | AwaitSubscribe r => sub_at h r = None
  | AwaitDestroy r => is_Some (sub_at h r)
  | _ => True
  end.

Fixpoint count (p : stage -> bool) (l : list stage) : nat :=
  match l with
  | [] => 0
  | st :: l' => (if p st then 1 else 0) + count p l'
  end.

(** The invariant of the engine. *)
Record inv (cfg : Config) (s : state) : Prop := mkInv {
  inv_len : length (loops s) <= NUM_CONSUMERS cfg;
  inv_bound : forall i st r,
    loops s !! i = Some st -> ref_of st = Some r -> r < length (heap s);
  inv_distinct : forall i j sti stj r,
    loops s !! i = Some sti -> loops s !! j = Some stj ->
    ref_of sti = Some r -> ref_of stj = Some r -> i = j;
  inv_sub : forall i st, loops s !! i = Some st -> stage_sub (heap s) st;
  inv_reg : forall i st,
    loops s !! i = Some st ->
    activeConsumers s !! consumer_id i = if registered st then ref_of st else None;
  inv_keys : forall k r,
    activeConsumers s !! k = Some r ->
    exists i, i < length (loops s) /\ k = consumer_id i;
  inv_size : size (activeConsumers s) = count registered (loops s);
  inv_closed : totalClosed s + count (holding (heap s)) (loops s) <= totalCreated s;
}.

(** The scheduler's choices in which the platform refuses something. *)
Definition subscribe_raised (inp : input) : bool :=
  match inp with
  | Wake _ (SubscribeSettled (inr _)) => true
  | _ => false
  end.
Definition destroy_raised (inp : input) : bool :=
  match inp with
  | Wake _ (DestroySettled (Some _)) => true
  | _ => false
  end.
Definition destroy_resolved (inp : input) : bool :=
  match inp with
  | Wake _ (DestroySettled None) => true
  | _ => false
  end.
Definition succeeds (inp : input) : bool :=
  negb (subscribe_raised inp) && negb (destroy_raised inp).

(** Lines 96 to 120 of a cycle: the subscription exists and [destroy] has not
    settled. *)
Definition live (st : stage) : bool :=
  match st with
  | AfterCreate _ | Lifetime _ | AwaitDestroy _ => true
  | _ => false
  end.

(** What holds in addition as long as no [js.subscribe] and no [destroy] has
    raised. *)
Record inv_ok (s : state) : Prop := mkInvOk {
  ok_live : forall i st,
    loops s !! i = Some st -> live st = true -> holding (heap s) st = true;
  ok_books : totalCreated s = totalClosed s + count (holding (heap s)) (loops s);
}.

(** The [LineStats] lines of an output. *)
Definition stats_of (out : list effect) : list Stats :=
  omap (fun e => match e with Console (LineStats st) => Some st | _ => None end) out.

(** ** Concrete platforms and schedules for the examples *)

(** A platform whose readiness probe fails twice and then answers. *)
Definition slow_platform : Platform :=
  {| connect_reply := None; manager_reply := None;
     list_reply := fun k => if k <? 2 then Some timeout_error else None;
     add_reply := fun _ => None |}.

(** A platform whose readiness probe never answers. *)
Definition dead_platform : Platform :=
  {| connect_reply := None; manager_reply := None;
     list_reply := fun _ => Some timeout_error;
     add_reply := fun _ => None |}.

(** A platform on which every [streams.add] fails with a timeout. *)
Definition failing_platform : Platform :=
  {| connect_reply := None; manager_reply := None;
     list_reply := fun _ => None;
     add_reply := fun _ => Some timeout_error |}.

(** A platform that creates the stream on the first [streams.add] and reports
    it as existing from then on. *)
Definition fresh_platform : Platform :=
  {| connect_reply := None; manager_reply := None;
     list_reply := fun _ => None;
     add_reply := fun k => if k =? 0 then None else Some in_use_error |}.

(** One loop, created with subscription 7, whose lifetime is over: it is
    suspended in [destroy]. *)
Definition to_destroying : list input :=
  [Launch 0; Wake 0 (SubscribeSettled (inl 7)); Wake 0 Continuation;
   Wake 0 (TimerFired 5000)].

Definition destroying_state : state :=
  match run cfg2 to_destroying init with
  | Some (s, _) => s
  | None => init
  end.

(** Two loops; the create of loop 0 is refused, the one of loop 1 succeeds;
    both are in their lifetime sleep when [printStats] runs. *)
Definition to_null_entry : list input :=
  [Launch 0; Launch 100;
   Wake 0 (SubscribeSettled (inr timeout_error));
   Wake 1 (SubscribeSettled (inl 7));
   Wake 0 Continuation; Wake 1 Continuation;
   InstallTimers; Tick].

Definition null_entry_state : state :=
  match run cfg2 to_null_entry init with
  | Some (s, _) => s
  | None => init
  end.

(** Two loops started, the create of loop 0 still pending. *)
Definition to_creating : list input := [Launch 0; Launch 100].

Definition creating_state : state :=
  match run cfg2 to_creating init with
  | Some (s, _) => s
  | None => init
  end.

(** A whole cycle of loop 0 and the beginning of the next, everything
    succeeding, with [printStats] in between. *)
Definition to_second_cycle : list input :=
  [Launch 0; Launch 100;
   Wake 0 (SubscribeSettled (inl 7)); Wake 0 Continuation;
   Wake 1 (SubscribeSettled (inl 8)); Wake 1 Continuation;
   InstallTimers; Tick; Message 0;
   Wake 0 (TimerFired 5000); Tick;
   Wake 0 (DestroySettled None); Wake 0 Continuation; Tick;
   Wake 0 (TimerFired 5100); Tick].

Definition second_cycle_state : state :=
  match run cfg2 to_second_cycle init with
  | Some (s, _) => s
  | None => init
  end.

Definition second_cycle_output : list effect :=
  match run cfg2 to_second_cycle init with
  | Some (_, out) => out
  | None => []
  end.

(** * Definitions for the further properties *)

(** ** Pure helpers of the reporter *)

(** The integers a JavaScript number holds exactly: those of magnitude below
    2^53 (9007199254740992). *)
Definition safe_integer (ms : Z) : Prop :=
  (- 9007199254740992 < ms < 9007199254740992)%Z.

(** simulator.ts, lines 171-178. [ms] is an integer number of milliseconds
    (a difference of two [Date.now()]); [Math.floor] of a quotient is [div],
    the remainder operator is [rem]. The source computes with IEEE doubles:
    for a [safe_integer] the quotients by 1000 and by 60 are rounded by less
    than 1/1000, so that their floors are the exact ones and this function is
    what the code prints; from 2^53 ms on the code's result can differ, and
    nothing is claimed about it. *)
Definition formatDuration (ms : Z) : string :=
  let seconds := (ms `div` 1000)%Z in
  let minutes := (seconds `div` 60)%Z in
  let hours := (minutes `div` 60)%Z in
  if (0 <? hours)%Z then
    pretty hours +:+ "h " +:+ pretty (minutes `rem` 60)%Z +:+ "m"
  else if (0 <? minutes)%Z then
    pretty minutes +:+ "m " +:+ pretty (seconds `rem` 60)%Z +:+ "s"
  else pretty seconds +:+ "s".

(** ** Budgets of the start-up *)

(** The milliseconds of the [sleep]s in a trace. *)
Fixpoint slept (l : list effect) : Z :=
  match l with
  | [] => 0
  | Sleep ms :: l' => ms + slept l'
  | _ :: l' => slept l'
  end.

(** A computation makes at most [probes] readiness probes and [adds] calls of
    [streams.add], and sleeps at most [ms] milliseconds, whatever the platform
    answers. *)
Definition within {A} (m : M A) (probes adds : nat) (ms : Z) : Prop :=
  forall w,
    lists_made (m w).2 <= lists_made w + probes
    /\ adds_made (m w).2 <= adds_made w + adds
    /\ (slept (effects (m w).2) <= slept (effects w) + ms)%Z.

(** What [main] does before it looks at MODE, when [connect] resolves. *)
Definition connected_trace (cfg : Config) : list effect :=
  [Console (LineBanner cfg); Sleep 10000; Connect (connect_user cfg);
   Console LineConnected].

(** The loop is past its [await createOrderedConsumer] and before the
    [totalReconnects++] of line 137. *)
Definition past_create (st : stage) : bool :=
  match st with
  | AfterCreate _ | Lifetime _ | AwaitDestroy _ | AfterClose _ => true
  | _ => false
  end.

Definition creating (st : stage) : bool :=
  match st with AwaitSubscribe _ => true | _ => false end.

Definition destroying (st : stage) : bool :=
  match st with AwaitDestroy _ => true | _ => false end.

Definition is_subscribe (e : effect) : bool :=
  match e with Subscribe _ => true | _ => false end.

Definition is_destroy (e : effect) : bool :=
  match e with Destroy _ => true | _ => false end.

(** How many elements of a list satisfy [p]. *)
Definition tally {A} (p : A -> bool) (l : list A) : nat :=
  length (List.filter p l).

(** The loop's entry in [activeConsumers] belongs to a create that failed or
    to a subscription whose [destroy] has settled. *)
Definition null_entry (h : list ConsumerInfo) (st : stage) : bool :=
  registered st && negb (holding h st).

(** The order in which [runConsumerLoop] goes through its suspension points. *)
Definition follows (st st' : stage) : bool :=
  match st, st' with
  | AwaitSubscribe r, AfterCreate r' => r =? r'
  | AfterCreate r, Lifetime r' => r =? r'
  | Lifetime r, AwaitDestroy r' => r =? r'
  | Lifetime r, AfterClose r' => r =? r'
  | AwaitDestroy r, AfterClose r' => r =? r'
  | AfterClose _, Cooldown => true
  | Cooldown, AwaitSubscribe _ => true
  | _, _ => false
  end.

(** The scheduler's choice resumes loop [j]. *)
Definition wakes (j : nat) (inp : input) : bool :=
  match inp with
  | Wake i _ => i =? j
  | _ => false
  end.

(** What can become of a [ConsumerInfo] object: its [id], [subject] and
    [createdAt] stay, [messageCount] does not decrease, and a [subscription]
    that is set stays the same. *)
Definition evolves (c c' : ConsumerInfo) : Prop :=
  id c' = id c /\ subject c' = subject c /\ createdAt c' = createdAt c
  /\ messageCount c <= messageCount c'
  /\ (forall sub, subscription c = Some sub -> subscription c' = Some sub).

(** Every loop's [info] is an object with the loop's [id] and [subject]. *)
Definition well_named (s : state) : Prop :=
  forall i st r,
    loops s !! i = Some st -> ref_of st = Some r ->
    exists c, heap s !! r = Some c
              /\ id c = consumer_id i /\ subject c = consumer_subject i.

(** No message was counted on an object without a subscription. *)
Definition silent_without_subscription (s : state) : Prop :=
  forall r c, heap s !! r = Some c -> subscription c = None -> messageCount c = 0.

(** The wake-ups of one cycle of loop [i] in which the platform grants the
    subscription [sub] and the [destroy] settles with [r]. *)
Definition cycle_of (i : nat) (now : Z) (sub : nat) (later : Z) (r : option JsError)
  : list input :=
  [Wake i (TimerFired now); Wake i (SubscribeSettled (inl sub)); Wake i Continuation;
   Wake i (TimerFired later); Wake i (DestroySettled r); Wake i Continuation].

(** The timers of [printStats] are installed only after the last loop has
    been started. *)
Definition timers_late (cfg : Config) (s : state) : Prop :=
  reporting s = true -> length (loops s) = NUM_CONSUMERS cfg.

(** What every snapshot printed by [printStats] satisfies. *)
Definition consistent_snapshot (cfg : Config) (st : Stats) : Prop :=
  st_active st <= NUM_CONSUMERS cfg
  /\ st_closed st <= st_created st
  /\ st_leaked st
     = (Z.of_nat (st_created st) - Z.of_nat (st_closed st) - Z.of_nat (st_active st))%Z.

(** ** The publisher *)

(** The [subjects] of [runPublisher], lines 147-152. *)
Definition publisher_subjects : list string :=
  [ "events.sensor.station1.data";
    "events.sensor.station2.data";
    "events.telemetry.module1.data";
    "events.telemetry.module2.data" ].

(** One [nc.publish] call: the subject ([None] for undefined) and the [seq]
    field of the payload. The two other fields of the payload come from the
    clock and from [Math.random()] and are left out. *)
Record publication : Type := mkPublication {
  pub_subject : option string;
  pub_seq : nat;
}.

Section Publisher.

(** [pick k] is [Math.floor(Math.random() * subjects.length)] as drawn for the
    message with sequence number [k]. *)
Variable pick : nat -> nat.

(** simulator.ts, lines 155-163: [n] iterations of the loop body, starting
    with [msgCount]; the result is the calls made and the new [msgCount]. *)
Fixpoint publish_loop (n msgCount : nat) : list publication * nat :=
  match n with
  | O => ([], msgCount)
  | S n' =>
      let subject := publisher_subjects !! pick msgCount in
      let p := mkPublication subject msgCount in
      let '(rest, msgCount') := publish_loop n' (S msgCount) in
      (p :: rest, msgCount')
  end.

(** simulator.ts, lines 154-164: one firing of the 100 ms interval. *)
Definition publish_tick (msgCount : nat) : list publication * nat :=
  publish_loop 50 msgCount.

(** [ticks] firings of the 100 ms interval in a row. *)
Fixpoint publish_ticks (ticks msgCount : nat) : list publication * nat :=
  match ticks with
  | O => ([], msgCount)
  | S t =>
      let '(batch, msgCount1) := publish_tick msgCount in
      let '(rest, msgCount2) := publish_ticks t msgCount1 in
      (batch ++ rest, msgCount2)
  end.

End Publisher.

(** ** More concrete inputs for the examples *)

(** The state and the output of a schedule run from [init]. *)
Definition state_after (cfg : Config) (inps : list input) : state :=
  match run cfg inps init with
  | Some (s, _) => s
  | None => init
  end.

Definition output_of (cfg : Config) (inps : list input) : list effect :=
  match run cfg inps init with
  | Some (_, out) => out
  | None => []
  end.

Definition publisher_config : Config :=
  {| NATS_URL := "nats://localhost:4222"; NATS_USER := ""; NATS_PASS := "";
     MODE := "publisher"; STREAM_NAME := "events"; NUM_CONSUMERS := 20;
     CONSUMER_LIFETIME_MS := 5000; RECONNECT_DELAY_MS := 100 |}.

(** A platform that cannot be connected to. *)
Definition unreachable_platform : Platform :=
  {| connect_reply := Some timeout_error; manager_reply := None;
     list_reply := fun _ => None; add_reply := fun _ => None |}.

(** A platform without JetStream. *)
Definition no_jetstream_platform : Platform :=
  {| connect_reply := None; manager_reply := Some timeout_error;
     list_reply := fun _ => None; add_reply := fun _ => None |}.

(** A platform whose [streams.add] times out twice and then succeeds. *)
Definition flaky_platform : Platform :=
  {| connect_reply := None; manager_reply := None;
     list_reply := fun _ => None;
     add_reply := fun k => if k <? 2 then Some timeout_error else None |}.

(** One loop whose [destroy] raised and which is back in COOLDOWN. *)
Definition to_abandoned : list input :=
  to_destroying ++ [Wake 0 (DestroySettled (Some timeout_error)); Wake 0 Continuation].

(** One loop that has completed a cycle and is in COOLDOWN. *)
Definition to_cooldown : list input :=
  to_destroying ++ [Wake 0 (DestroySettled None); Wake 0 Continuation].

(** The create of loop 0 is refused while loop 1 waits for its own. *)
Definition refusal_of_loop_0 : list input :=
  [Wake 0 (SubscribeSettled (inr timeout_error)); Wake 0 Continuation].

(** Loop 1 gets its subscription and a first message. *)
Definition first_message_of_loop_1 : list input :=
  [Wake 1 (SubscribeSettled (inl 7)); Message 1].

(** ** Parts of a schedule *)

(** The output of those steps of a schedule whose input satisfies [p], in
    order, up to the first step that is not possible. *)
Fixpoint output_where (cfg : Config) (p : input -> bool) (inps : list input) (s : state)
  : list effect :=
  match inps with
  | [] => []
  | inp :: rest =>
      match step cfg inp s with
      | None => []
      | Some (s1, out1) =>
          (if p inp then out1 else []) ++ output_where cfg p rest s1
      end
  end.

(** An iteration of the launch loop of [main], lines 243-246. *)
Definition is_launch (inp : input) : bool :=
  match inp with Launch _ => true | _ => false end.

(** ** The cycle after a refused create *)

(** Where [runConsumerLoop] is suspended after [n] resumptions that follow a
    rejected [js.subscribe]: at line 130 with its continuation queued, in the
    lifetime sleep, at line 135 with its continuation queued, in the
    reconnect-delay sleep. *)
Definition after_refusal (info n : nat) : stage :=
  match n with
  | 0 => AfterCreate info
  | 1 => Lifetime info
  | 2 => AfterClose info
  | _ => Cooldown
  end.

(** What the loop emits at each of these resumptions: it starts the lifetime
    sleep, [closeConsumer] finds no subscription and calls nothing, it starts
    the reconnect-delay sleep. *)
Definition refusal_step_output (cfg : Config) (n : nat) : list effect :=
  match n with
  | 0 => [Sleep (CONSUMER_LIFETIME_MS cfg)]
  | 2 => [Sleep (RECONNECT_DELAY_MS cfg)]
  | _ => []
  end.

Definition output_after_refusal (cfg : Config) (n : nat) : list effect :=
  concat (refusal_step_output cfg <$> seq 0 n).

(** What resumes the loop at these points: its queued continuation, or, in
    the lifetime sleep, the timer, once no continuation is queued. *)
Definition accepted_after_refusal (s : state) (n : nat) (w : wakeup) : Prop :=
  match n with
  | 1 => quiescent s = true /\ exists now, w = TimerFired now
  | _ => w = Continuation
  end.

(** Two loops; [js.subscribe] of loop 1 has resolved and the continuation of
    loop 1 is queued while loop 0 still waits for its own. *)
Definition to_queued : list input :=
  [Launch 0; Launch 100; Wake 1 (SubscribeSettled (inl 8))].

Definition queued_state : state :=
  match run cfg2 to_queued init with
  | Some (s, _) => s
  | None => init
  end.

(** The rest of the cycle of loop 0, interleaved with loop 1. *)
Definition refused_cycle : list input :=
  [Wake 1 Continuation; Wake 0 Continuation; Message 1;
   Wake 0 (TimerFired 5000); Wake 0 Continuation; Wake 1 (TimerFired 5100)].

(** ** The destroy calls of a schedule *)

(** The [destroy] call of a step, if it makes one: the object [info] of the
    loop that runs [closeConsumer(info)], and the handle the call is made
    on. *)
Definition destroy_call (s : state) (inp : input) (out : list effect) : list (nat * nat) :=
  match inp, out with
  | Wake consumerId _, [Destroy sub] =>
      match loops s !! consumerId with
      | Some st =>
          match ref_of st with
          | Some info => [(info, sub)]
          | None => []
          end
      | None => []
      end
  | _, _ => []
  end.

Fixpoint destroy_calls (cfg : Config) (inps : list input) (s : state) : list (nat * nat) :=
  match inps with
  | [] => []
  | inp :: rest =>
      match step cfg inp s with
      | None => []
      | Some (s1, out1) => destroy_call s inp out1 ++ destroy_calls cfg rest s1
      end
  end.

(** The handles of the [destroy] calls in an output. *)
Definition destroy_handles (out : list effect) : list nat :=
  omap (fun e => match e with Destroy sub => Some sub | _ => None end) out.

(** The objects [infos] are past line 119: each is allocated, and a loop that
    still holds one of them waits for its [destroy] to settle or has left
    [closeConsumer]. *)
Definition destroyed (s : state) (infos : list nat) : Prop :=
  forall r, r ∈ infos ->
    r < length (heap s)
    /\ forall j st, loops s !! j = Some st -> ref_of st = Some r ->
         st = AwaitDestroy r \/ st = AfterClose r.

(** * Properties of the start-up *)

Section StartupFacts.

Variable cfg : Config.
Variable platform : Platform.

Lemma bind_emit {B} (e : effect) (k : unit -> M B) (w : world) :
  bind (emit e) k w =
  k tt (mkWorld (lists_made w) (adds_made w) (effects w ++ [e])).
Proof. reflexivity. Qed.

Lemma bind_assoc {A B C} (m : M A) (f : A -> M B) (k : B -> M C) (w : world) :
  bind (bind m f) k w = bind m (fun a => bind (f a) k) w.
Proof. unfold bind. destruct (m w) as [[a|e|c] w']; reflexivity. Qed.

Lemma bind_settle_None {B} (k : unit -> M B) (w : world) :
  bind (settle None) k w = k tt w.
Proof. reflexivity. Qed.

Lemma bind_Returned {A B} (m : M A) (k : A -> M B) (w : world) (a : A) (w' : world) :
  m w = (Returned a, w') -> bind m k w = k a w'.
Proof. unfold bind. by intros ->. Qed.

(** One iteration of the polling loop whose probe fails. *)
Lemma waitForJetStream_body_fail maxRetries i w e :
  list_reply platform (lists_made w) = Some e ->
  waitForJetStream_body platform maxRetries i w =
  (Returned None,
   mkWorld (S (lists_made w)) (adds_made w)
           (effects w ++ [StreamsListNext; Console (LineWaiting (i + 1) maxRetries);
                          Sleep 2000])).
Proof.
  intros He.
  unfold waitForJetStream_body, try_catch, await_streams_list_next, bind, settle.
  rewrite He. cbn. rewrite <- !app_assoc. reflexivity.
Qed.

(** One iteration of the polling loop whose probe succeeds. *)
Lemma waitForJetStream_body_ok maxRetries i w :
  list_reply platform (lists_made w) = None ->
  waitForJetStream_body platform maxRetries i w =
  (Returned (Some true),
   mkWorld (S (lists_made w)) (adds_made w) (effects w ++ [StreamsListNext])).
Proof.
  intros He.
  unfold waitForJetStream_body, try_catch, await_streams_list_next, bind, settle.
  rewrite He. reflexivity.
Qed.

Lemma wait_loop_exhausted maxRetries n : forall i w,
  (forall k, k < n -> list_reply platform (lists_made w + k) <> None) ->
  for_loop n i (waitForJetStream_body platform maxRetries) (ret false) w =
  (Returned false,
   mkWorld (lists_made w + n) (adds_made w)
           (effects w ++ waiting_trace maxRetries i n)).
Proof.
  induction n as [|n IH]; intros i w Hfail.
  - cbn. unfold ret. destruct w as [a b c]. cbn.
    by rewrite Nat.add_0_r, app_nil_r.
  - destruct (list_reply platform (lists_made w)) as [e|] eqn:He.
    2:{ exfalso. apply (Hfail 0 ltac:(lia)). by rewrite Nat.add_0_r. }
    cbn [for_loop]. unfold bind at 1.
    rewrite (waitForJetStream_body_fail _ _ _ _ He).
    rewrite IH.
    + cbn [lists_made adds_made effects waiting_trace].
      rewrite <- app_assoc. f_equal. f_equal. lia.
    + intros k Hk. cbn [lists_made].
      replace (S (lists_made w) + k) with (lists_made w + S k) by lia.
      apply Hfail. lia.
Qed.

Lemma wait_loop_first_success maxRetries j : forall n i w,
  j < n ->
  (forall k, k < j -> list_reply platform (lists_made w + k) <> None) ->
  list_reply platform (lists_made w + j) = None ->
  for_loop n i (waitForJetStream_body platform maxRetries) (ret false) w =
  (Returned true,
   mkWorld (lists_made w + S j) (adds_made w)
           (effects w ++ waiting_trace maxRetries i j ++ [StreamsListNext])).
Proof.
  induction j as [|j IH]; intros n i w Hlt Hfail Hok.
  - destruct n as [|n]; [lia|].
    rewrite Nat.add_0_r in Hok.
    cbn [for_loop]. unfold bind at 1.
    rewrite (waitForJetStream_body_ok _ _ _ Hok). cbn.
    unfold ret. do 2 f_equal. lia.
  - destruct n as [|n]; [lia|].
    destruct (list_reply platform (lists_made w)) as [e|] eqn:He.
    2:{ exfalso. apply (Hfail 0 ltac:(lia)). by rewrite Nat.add_0_r. }
    cbn [for_loop]. unfold bind at 1.
    rewrite (waitForJetStream_body_fail _ _ _ _ He).
    rewrite (IH n (S i)).
    + cbn [lists_made adds_made effects waiting_trace].
      rewrite <- !app_assoc. f_equal. f_equal. lia.
    + lia.
    + intros k Hk. cbn [lists_made].
      replace (S (lists_made w) + k) with (lists_made w + S k) by lia.
      apply Hfail. lia.
    + cbn [lists_made].
      replace (S (lists_made w) + j) with (lists_made w + S j) by lia.
      exact Hok.
Qed.

Lemma createStream_body_created attempt w :
  add_reply platform (adds_made w) = None ->
  createStream_body cfg platform attempt w =
  (Returned (Some tt),
   mkWorld (lists_made w) (S (adds_made w))
           (effects w ++ [StreamsAdd (stream_config cfg);
                          Console (LineStreamCreated (STREAM_NAME cfg))])).
Proof.
  intros He.
  unfold createStream_body, try_catch, await_streams_add, bind, settle.
  rewrite He. cbn. by rewrite <- app_assoc.
Qed.

Lemma createStream_body_exists attempt w e :
  add_reply platform (adds_made w) = Some e ->
  already_exists e = true ->
  createStream_body cfg platform attempt w =
  (Returned (Some tt),
   mkWorld (lists_made w) (S (adds_made w))
           (effects w ++ [StreamsAdd (stream_config cfg);
                          Console (LineStreamExists (STREAM_NAME cfg))])).
Proof.
  intros He Hex.
  unfold createStream_body, try_catch, await_streams_add, bind, settle.
  rewrite He, Hex. cbn. by rewrite <- app_assoc.
Qed.

Lemma createStream_body_failed attempt w e :
  add_reply platform (adds_made w) = Some e ->
  already_exists e = false ->
  createStream_body cfg platform attempt w =
  (Returned None,
   mkWorld (lists_made w) (S (adds_made w))
           (effects w ++ [StreamsAdd (stream_config cfg);
                          Console (LineStreamAttemptFailed (attempt + 1) (message e));
                          Sleep 3000])).
Proof.
  intros He Hex.
  unfold createStream_body, try_catch, await_streams_add, bind, settle.
  rewrite He, Hex. cbn. by rewrite <- !app_assoc.
Qed.

Lemma create_loop_exhausted n : forall i w,
  (forall k, k < n -> other_failure platform (adds_made w + k)) ->
  for_loop n i (createStream_body cfg platform) (ret tt) w =
  (Returned tt,
   mkWorld (lists_made w) (adds_made w + n)
           (effects w ++ failing_trace cfg platform (adds_made w) i n)).
Proof.
  induction n as [|n IH]; intros i w Hfail.
  - cbn. unfold ret. destruct w as [a b c]. cbn.
    by rewrite Nat.add_0_r, app_nil_r.
  - destruct (Hfail 0 ltac:(lia)) as (e & He & Hex).
    rewrite Nat.add_0_r in He.
    cbn [for_loop]. unfold bind at 1.
    rewrite (createStream_body_failed _ _ _ He Hex).
    rewrite IH.
    + cbn [lists_made adds_made effects failing_trace].
      rewrite He. cbn [mbind option_bind].
      rewrite <- app_assoc. f_equal. f_equal. lia.
    + intros k Hk. cbn [adds_made].
      replace (S (adds_made w) + k) with (adds_made w + S k) by lia.
      apply Hfail. lia.
Qed.

Lemma create_loop_settled j : forall n i w,
  j < n ->
  (forall k, k < j -> other_failure platform (adds_made w + k)) ->
  (add_reply platform (adds_made w + j) = None \/
   exists e, add_reply platform (adds_made w + j) = Some e /\ already_exists e = true) ->
  for_loop n i (createStream_body cfg platform) (ret tt) w =
  (Returned tt,
   mkWorld (lists_made w) (adds_made w + S j)
           (effects w ++ failing_trace cfg platform (adds_made w) i j ++
            [StreamsAdd (stream_config cfg);
             Console (match add_reply platform (adds_made w + j) with
                      | None => LineStreamCreated (STREAM_NAME cfg)
                      | Some _ => LineStreamExists (STREAM_NAME cfg)
                      end)])).
Proof.
  induction j as [|j IH]; intros n i w Hlt Hfail Hok.
  - destruct n as [|n]; [lia|].
    rewrite Nat.add_0_r in Hok. rewrite Nat.add_0_r.
    cbn [for_loop]. unfold bind at 1.
    destruct Hok as [Hok | (e & He & Hex)].
    + rewrite (createStream_body_created _ _ Hok), Hok. cbn.
      unfold ret. f_equal. f_equal. lia.
    + rewrite (createStream_body_exists _ _ _ He Hex), He. cbn.
      unfold ret. f_equal. f_equal. lia.
  - destruct n as [|n]; [lia|].
    destruct (Hfail 0 ltac:(lia)) as (e & He & Hex).
    rewrite Nat.add_0_r in He.
    cbn [for_loop]. unfold bind at 1.
    rewrite (createStream_body_failed _ _ _ He Hex).
    rewrite (IH n (S i)).
    + cbn [lists_made adds_made effects failing_trace].
      rewrite He. cbn [mbind option_bind].
      replace (S (adds_made w) + j) with (adds_made w + S j) by lia.
      rewrite <- !app_assoc. f_equal. f_equal. lia.
    + lia.
    + intros k Hk. cbn [adds_made].
      replace (S (adds_made w) + k) with (adds_made w + S k) by lia.
      apply Hfail. lia.
    + cbn [adds_made].
      replace (S (adds_made w) + j) with (adds_made w + S j) by lia.
      exact Hok.
Qed.

(** Whatever the platform answers, the provisioning loop returns normally
    and leaves the count of readiness probes alone. *)
Lemma create_loop_returns n : forall i w,
  exists w',
    for_loop n i (createStream_body cfg platform) (ret tt) w = (Returned tt, w')
    /\ lists_made w' = lists_made w.
Proof.
  induction n as [|n IH]; intros i w.
  - exists w. by cbn.
  - cbn [for_loop]. unfold bind at 1.
    destruct (add_reply platform (adds_made w)) as [e|] eqn:He.
    + destruct (already_exists e) eqn:Hex.
      * rewrite (createStream_body_exists _ _ _ He Hex). eexists. by cbn.
      * rewrite (createStream_body_failed _ _ _ He Hex).
        destruct (IH (S i) (mkWorld (lists_made w) (S (adds_made w))
           (effects w ++ [StreamsAdd (stream_config cfg);
                          Console (LineStreamAttemptFailed (i + 1) (message e));
                          Sleep 3000]))) as (w' & Hw' & Hl).
        exists w'. by rewrite Hw'.
    + rewrite (createStream_body_created _ _ He). eexists. by cbn.
Qed.

(** The polling loop returns whether one of its probes succeeded. *)
Lemma wait_loop_returns maxRetries n : forall i w,
  exists w',
    for_loop n i (waitForJetStream_body platform maxRetries) (ret false) w =
    (Returned (existsb (fun k => bool_decide (list_reply platform k = None))
                       (seq (lists_made w) n)), w').
Proof.
  induction n as [|n IH]; intros i w.
  - exists w. by cbn.
  - cbn [for_loop seq existsb]. unfold bind at 1.
    destruct (list_reply platform (lists_made w)) as [e|] eqn:He.
    + rewrite (waitForJetStream_body_fail _ _ _ _ He).
      rewrite bool_decide_eq_false_2 by done. cbn [orb].
      apply IH.
    + rewrite (waitForJetStream_body_ok _ _ _ He).
      rewrite bool_decide_eq_true_2 by done. eexists. by cbn.
Qed.

(** The whole start-up ends as [startup_outcome] says: the answers of
    [streams.add] play no part in it. *)
Lemma top_level_outcome :
  fst (top_level cfg platform world0) = startup_outcome cfg platform.
Proof.
  unfold top_level, try_catch, main, startup_outcome, console, sleep.
  rewrite !bind_emit.
  unfold await_connect. rewrite bind_assoc, bind_emit.
  destruct (connect_reply platform) as [e|]; [by cbn|].
  rewrite bind_settle_None, bind_emit.
  case_bool_decide as Hmode; [by cbn|].
  unfold await_jetstreamManager. rewrite bind_assoc, bind_emit.
  destruct (manager_reply platform) as [e|]; [by cbn|].
  rewrite bind_settle_None, bind_emit.
  match goal with
  | |- context [bind (waitForJetStream _ _) _ ?w] =>
      destruct (wait_loop_returns 30 30 0 w) as (w1 & Hw1);
      rewrite (bind_Returned _ _ _ _ _ Hw1)
  end.
  cbn [lists_made world0]. fold (ready_within platform 30).
  destruct (ready_within platform 30); [|by cbn].
  rewrite (bind_Returned _ _ w1 tt w1) by done.
  rewrite bind_emit.
  match goal with
  | |- context [bind (createStream _ _) _ ?w] =>
      destruct (create_loop_returns 10 0 w) as (w2 & Hw2 & _);
      rewrite (bind_Returned _ _ _ _ _ Hw2)
  end.
  by cbn.
Qed.

End StartupFacts.

(** * Properties of the churn engine *)

(** ** Identifiers, heap and counting lemmas *)

Lemma consumer_id_inj i j : consumer_id i = consumer_id j -> i = j.
Proof.
  unfold consumer_id. intros H.
  apply (inj (String.app "consumer_")) in H.
  by apply (inj pretty) in H.
Qed.

Lemma sub_at_app h c r : r < length h -> sub_at (h ++ [c]) r = sub_at h r.
Proof. intros Hr. unfold sub_at. by rewrite lookup_app_l. Qed.

Lemma sub_at_new h c : sub_at (h ++ [c]) (length h) = subscription c.
Proof. unfold sub_at. by rewrite list_lookup_middle. Qed.

Lemma sub_at_alter_eq h sub r :
  r < length h -> sub_at (alter (set_subscription sub) r h) r = Some sub.
Proof.
  intros Hr. unfold sub_at. rewrite list_lookup_alter_eq.
  destruct (lookup_lt_is_Some_2 h r Hr) as [c ->]. done.
Qed.

Lemma sub_at_alter_ne h f r r' : r <> r' -> sub_at (alter f r h) r' = sub_at h r'.
Proof. intros Hne. unfold sub_at. by rewrite list_lookup_alter_ne. Qed.

Lemma sub_at_incr h info c r :
  h !! info = Some c -> sub_at (<[info := incr_messageCount c]> h) r = sub_at h r.
Proof.
  intros Hc. unfold sub_at.
  destruct (decide (info = r)) as [->|Hne].
  - rewrite list_lookup_insert_eq by (by eapply lookup_lt_Some). by rewrite Hc.
  - by rewrite list_lookup_insert_ne.
Qed.

Lemma holding_frame h h' st :
  (forall r, ref_of st = Some r -> sub_at h' r = sub_at h r) ->
  holding h' st = holding h st.
Proof. destruct st; cbn; intros H; try done; by rewrite H. Qed.

Lemma stage_sub_frame h h' st :
  (forall r, ref_of st = Some r -> sub_at h' r = sub_at h r) ->
  stage_sub h st -> stage_sub h' st.
Proof. destruct st; cbn; intros H; try done; by rewrite H. Qed.

Lemma count_app p l1 l2 : count p (l1 ++ l2) = count p l1 + count p l2.
Proof. induction l1 as [|x l1 IH]; cbn; [done|]. rewrite IH. destruct (p x); lia. Qed.

Lemma count_insert p l : forall i x y,
  l !! i = Some x ->
  count p (<[i := y]> l) + (if p x then 1 else 0) = count p l + (if p y then 1 else 0).
Proof.
  induction l as [|z l IH]; intros [|i] x y Hx; simpl in *; try done.
  - injection Hx as ->. destruct (p x), (p y); lia.
  - specialize (IH i x y Hx). revert IH. destruct (p x), (p y), (p z); lia.
Qed.

Lemma count_ext p q l :
  (forall j z, l !! j = Some z -> q z = p z) -> count q l = count p l.
Proof.
  induction l as [|z l IH]; intros H; cbn; [done|].
  rewrite (H 0 z) by done. rewrite IH; [done|].
  intros j z' Hj. by apply (H (S j)).
Qed.

Lemma count_le_length p l : count p l <= length l.
Proof. induction l as [|z l IH]; cbn; [done|]. destruct (p z); lia. Qed.

Section EngineFacts.

Variable cfg : Config.

Lemma step_transition inp s s' out :
  step cfg inp s = Some (s', out) -> transition cfg s inp s' out.
Proof.
  destruct inp as [now| |i w|info|]; cbn [step].
  - destruct (quiescent s) eqn:Hq; [|done].
    destruct (length (loops s) <? NUM_CONSUMERS cfg) eqn:Hlt; [|done].
    cbn. intros [= <- <-].
    apply Nat.ltb_lt in Hlt. by constructor.
  - destruct (quiescent s) eqn:Hq; [|done].
    destruct (length (loops s) =? NUM_CONSUMERS cfg) eqn:Hn; [|done].
    destruct (reporting s) eqn:Hr; [done|].
    cbn. intros [= <- <-].
    apply Nat.eqb_eq in Hn. by constructor.
  - destruct (is_task w && negb (quiescent s)) eqn:Hg; [done|].
    destruct (loops s !! i) as [st|] eqn:Hst; [|done].
    cbn [mbind option_bind].
    assert (is_task w = true -> quiescent s = true) as Hq.
    { intros Ht. rewrite Ht in Hg. by destruct (quiescent s). }
    destruct st as [info|info|info|info|info|];
      destruct w as [[sub|e]|r| |now]; cbn; try done.
    + intros [= <- <-]. by constructor.
    + intros [= <- <-]. by constructor.
    + intros [= <- <-]. by constructor.
    + unfold closeConsumer_call.
      destruct (subscription_of s info) as [sub|] eqn:Hsub; cbn;
        intros [= <- <-]; constructor; auto.
    + intros [= <- <-].
      destruct r as [e|];
        [exact (T_destroyed cfg s i info (Some e) Hst)
        |exact (T_destroyed cfg s i info None Hst)].
    + intros [= <- <-]. by apply T_unregister with info.
    + intros [= <- <-]. constructor; auto.
  - destruct (heap s !! info) as [c|] eqn:Hc; [|done]. cbn.
    destruct (subscription c) as [sub|] eqn:Hsub; [|done]. cbn.
    intros [= <- <-]. by econstructor.
  - destruct (quiescent s) eqn:Hq; [|done].
    destruct (reporting s) eqn:Hr; [|done].
    cbn. intros [= <- <-]. by constructor.
Qed.

(** ** The invariant holds initially and every step preserves it *)

Lemma inv_init : inv cfg init.
Proof.
  split; simpl; try done; try lia.
Qed.

Lemma step_len s inp s' out :
  transition cfg s inp s' out -> inv cfg s ->
  length (loops s') <= NUM_CONSUMERS cfg.
Proof.
  intros Htr [Hlen _ _ _ _ _ _ _].
  destruct Htr; simpl; rewrite ?length_app, ?length_insert; simpl;
    lia.
Qed.

Lemma step_heap_length s inp s' out :
  transition cfg s inp s' out -> length (heap s) <= length (heap s').
Proof.
  intros Htr.
  destruct Htr; simpl; rewrite ?length_app, ?length_insert, ?length_alter;
    simpl; try lia.
  destruct r; simpl; lia.
Qed.

(** What a step does to the list of loops: nothing, one more loop with a
    fresh object, or one loop moved on, keeping its object, dropping it or
    taking a fresh one. *)
Lemma step_loops s inp s' out :
  transition cfg s inp s' out ->
  loops s' = loops s
  \/ (loops s' = loops s ++ [AwaitSubscribe (length (heap s))]
      /\ length (heap s) < length (heap s'))
  \/ (exists i st st',
        loops s !! i = Some st /\ loops s' = <[i := st']> (loops s)
        /\ (ref_of st' = ref_of st \/ ref_of st' = None
            \/ (ref_of st' = Some (length (heap s))
                /\ length (heap s) < length (heap s')))).
Proof.
  intros Htr.
  destruct Htr; simpl; rewrite ?length_app; simpl;
    try (left; reflexivity);
    try (right; left; split; [reflexivity | lia]);
    try (right; right; eexists _, _, _; split; [eassumption|];
         split; [reflexivity|]; simpl; auto; fail).
  right; right. eexists _, _, _. split; [eassumption|].
  split; [reflexivity|]. right; right. split; [done | lia].
Qed.

Lemma step_bound s inp s' out :
  transition cfg s inp s' out -> inv cfg s ->
  forall i st r,
    loops s' !! i = Some st -> ref_of st = Some r -> r < length (heap s').
Proof.
  intros Htr Hinv i st r Hi Hr.
  pose proof (step_heap_length _ _ _ _ Htr) as Hlen.
  pose proof (inv_bound _ _ Hinv) as Hb.
  destruct (step_loops _ _ _ _ Htr)
    as [Heq | [[Heq Hlt] | (k & x & x' & Hk & Heq & Hx')]];
    rewrite Heq in Hi.
  - specialize (Hb _ _ _ Hi Hr). lia.
  - apply lookup_snoc_Some in Hi as [[_ Hi] | [_ <-]].
    + specialize (Hb _ _ _ Hi Hr). lia.
    + simpl in Hr. injection Hr as <-. lia.
  - apply list_lookup_insert_Some in Hi as [(<- & <- & _) | (_ & Hi)].
    + destruct Hx' as [Hx' | [Hx' | [Hx' Hlt]]]; rewrite Hx' in Hr.
      * specialize (Hb _ _ _ Hk Hr). lia.
      * done.
      * injection Hr as <-. lia.
    + specialize (Hb _ _ _ Hi Hr). lia.
Qed.

Lemma step_distinct s inp s' out :
  transition cfg s inp s' out -> inv cfg s ->
  forall i j sti stj r,
    loops s' !! i = Some sti -> loops s' !! j = Some stj ->
    ref_of sti = Some r -> ref_of stj = Some r -> i = j.
Proof.
  intros Htr Hinv i j sti stj r Hi Hj Hri Hrj.
  pose proof (inv_bound _ _ Hinv) as Hb.
  pose proof (inv_distinct _ _ Hinv) as Hd.
  destruct (step_loops _ _ _ _ Htr)
    as [Heq | [[Heq Hlt] | (k & x & x' & Hk & Heq & Hx')]];
    rewrite Heq in Hi, Hj.
  - eauto.
  - apply lookup_snoc_Some in Hi as [[Hil Hi] | [-> <-]];
      apply lookup_snoc_Some in Hj as [[Hjl Hj] | [-> <-]].
    + eauto.
    + simpl in Hrj. injection Hrj as <-.
      specialize (Hb _ _ _ Hi Hri). lia.
    + simpl in Hri. injection Hri as <-.
      specialize (Hb _ _ _ Hj Hrj). lia.
    + done.
  - apply list_lookup_insert_Some in Hi as [(<- & <- & _) | (Hik & Hi)];
      apply list_lookup_insert_Some in Hj as [(<- & <- & _) | (Hjk & Hj)].
    + done.
    + destruct Hx' as [Hx' | [Hx' | [Hx' Hlt]]]; rewrite Hx' in Hri.
      * eauto.
      * done.
      * injection Hri as <-. specialize (Hb _ _ _ Hj Hrj). lia.
    + destruct Hx' as [Hx' | [Hx' | [Hx' Hlt]]]; rewrite Hx' in Hrj.
      * eauto.
      * done.
      * injection Hrj as <-. specialize (Hb _ _ _ Hi Hri). lia.
    + eauto.
Qed.

(** A step leaves [info.subscription] of every loop's object alone, except
    for the loop whose [js.subscribe] has just resolved. *)
Lemma step_sub_frame s inp s' out :
  transition cfg s inp s' out -> inv cfg s ->
  forall j st r,
    loops s !! j = Some st -> ref_of st = Some r ->
    sub_at (heap s') r = sub_at (heap s) r
    \/ (exists sub, inp = Wake j (SubscribeSettled (inl sub))
                    /\ st = AwaitSubscribe r).
Proof.
  intros Htr Hinv j st r Hj Hr.
  pose proof (inv_bound _ _ Hinv _ _ _ Hj Hr) as Hb.
  destruct Htr; simpl; try (left; reflexivity).
  - left. by apply sub_at_app.
  - destruct (decide (info = r)) as [->|Hne].
    + right. exists sub.
      assert (i = j) as ->
        by (eapply (inv_distinct _ _ Hinv); eauto).
      split; [done|]. congruence.
    + left. by apply sub_at_alter_ne.
  - left. by destruct r0.
  - left. by apply sub_at_app.
  - left. by apply sub_at_incr.
Qed.

Ltac split_lookup H :=
  first [ apply list_lookup_insert_Some in H as [(<- & <- & _) | (? & H)]
        | apply lookup_snoc_Some in H as [[_ H] | [-> <-]] ].

Lemma step_sub s inp s' out :
  transition cfg s inp s' out -> inv cfg s ->
  forall i st, loops s' !! i = Some st -> stage_sub (heap s') st.
Proof.
  intros Htr Hinv j st Hj.
  assert (forall x, loops s !! j = Some x ->
                    (forall sub, inp <> Wake j (SubscribeSettled (inl sub))) ->
                    stage_sub (heap s') x) as Hold.
  { intros x Hx Hinp. apply (stage_sub_frame (heap s)).
    - intros r Hr.
      destruct (step_sub_frame _ _ _ _ Htr Hinv _ _ _ Hx Hr)
        as [H | (sub & H & _)]; [done|]. by destruct (Hinp sub).
    - by apply (inv_sub _ _ Hinv j). }
  destruct Htr; simpl in Hj |- *; try split_lookup Hj;
    try (apply Hold; [done | done]); try exact I.
  - simpl. apply sub_at_new.
  - apply Hold; [done|]. intros sub' [= ? ?]. done.
  - simpl. unfold subscription_of in *. by eexists.
  - simpl. apply sub_at_new.
Qed.

Lemma step_reg s inp s' out :
  transition cfg s inp s' out -> inv cfg s ->
  forall i st,
    loops s' !! i = Some st ->
    activeConsumers s' !! consumer_id i = if registered st then ref_of st else None.
Proof.
  intros Htr Hinv j st Hj.
  pose proof (inv_reg _ _ Hinv) as Hreg.
  destruct Htr; simpl in Hj |- *; try split_lookup Hj;
    rewrite ?lookup_insert_eq, ?lookup_delete_eq;
    try (rewrite lookup_insert_ne by (intros ?%consumer_id_inj; done));
    try (rewrite lookup_delete_ne by (intros ?%consumer_id_inj; done));
    try (destruct r; simpl);
    try (by apply Hreg);
    try (match goal with
         | Hk : loops s !! ?i = Some _ |- activeConsumers s !! consumer_id ?i = _ =>
             by rewrite (Hreg _ _ Hk)
         end);
    try done.
  cbn [registered].
  apply eq_None_not_Some. intros [r Hr].
  destruct (inv_keys _ _ Hinv _ _ Hr) as (i & Hi & Heq%consumer_id_inj). lia.
Qed.

Lemma step_keys s inp s' out :
  transition cfg s inp s' out -> inv cfg s ->
  forall k r,
    activeConsumers s' !! k = Some r ->
    exists i, i < length (loops s') /\ k = consumer_id i.
Proof.
  intros Htr Hinv k r Hk.
  assert (length (loops s) <= length (loops s')) as Hlen.
  { destruct (step_loops _ _ _ _ Htr) as [-> | [[-> _] | (i & x & x' & _ & -> & _)]];
      rewrite ?length_app, ?length_insert; simpl; lia. }
  assert (activeConsumers s !! k = Some r \/
          exists i, i < length (loops s) /\ k = consumer_id i) as [Hold | Hnew].
  { destruct Htr; simpl in Hk; try (by left); try (destruct r0; by left).
    - apply lookup_insert_Some in Hk as [[<- _] | [_ Hk]]; [right | by left].
      exists i. split; [by eapply lookup_lt_Some | done].
    - apply lookup_delete_Some in Hk as [_ Hk]. by left. }
  - destruct (inv_keys _ _ Hinv _ _ Hold) as (i & Hi & ->).
    exists i. split; [lia | done].
  - destruct Hnew as (i & Hi & ->). exists i. split; [lia | done].
Qed.

Lemma step_size s inp s' out :
  transition cfg s inp s' out -> inv cfg s ->
  size (activeConsumers s') = count registered (loops s').
Proof.
  intros Htr Hinv.
  pose proof (inv_size _ _ Hinv) as Hsize.
  pose proof (inv_reg _ _ Hinv) as Hreg.
  destruct Htr; simpl; try done;
    try (match goal with
         | Hk : loops s !! ?i = Some ?x |- context [<[?i := ?y]> (loops s)] =>
             pose proof (count_insert registered (loops s) i x y Hk) as Hc;
             pose proof (Hreg _ _ Hk) as Hri;
             simpl in Hc, Hri
         end).
  - rewrite count_app. simpl. lia.
  - lia.
  - lia.
  - rewrite map_size_insert_None by done. lia.
  - lia.
  - lia.
  - destruct r; simpl; lia.
  - rewrite map_size_delete_Some by (by eexists). lia.
  - lia.
Qed.

(** The loops that were holding a subscription before a step are the ones
    that hold one in the new heap. *)
Lemma step_holding_old s inp s' out :
  transition cfg s inp s' out -> inv cfg s ->
  count (holding (heap s')) (loops s) = count (holding (heap s)) (loops s).
Proof.
  intros Htr Hinv. apply count_ext. intros j st Hj.
  destruct (ref_of st) as [r|] eqn:Hr; [|by destruct st].
  destruct (step_sub_frame _ _ _ _ Htr Hinv _ _ _ Hj Hr) as [H | (sub & _ & ->)];
    [|done].
  apply holding_frame. intros r' Hr'. congruence.
Qed.

(** The books of one step: what the step adds to [totalCreated] it adds to
    the subscriptions held or to [totalClosed], except that a [destroy] that
    raised takes a held subscription away without counting it as closed. *)
Lemma step_account s inp s' out :
  transition cfg s inp s' out -> inv cfg s ->
  totalCreated s' + totalClosed s + count (holding (heap s)) (loops s)
  = totalCreated s + totalClosed s' + count (holding (heap s')) (loops s')
    + (if destroy_raised inp then 1 else 0).
Proof.
  intros Htr Hinv.
  pose proof (step_holding_old _ _ _ _ Htr Hinv) as Hold.
  pose proof (inv_sub _ _ Hinv) as Hsub.
  pose proof (inv_bound _ _ Hinv) as Hb.
  destruct Htr; simpl in Hold |- *; try lia;
    try (match goal with
         | Hk : loops s !! ?i = Some ?x |- context [<[?i := ?y]> (loops s)] =>
             pose proof (count_insert (holding (heap s)) (loops s) i x y Hk) as Hc;
             pose proof (Hsub _ _ Hk) as Hs;
             simpl in Hc, Hs
         end).
  - rewrite count_app. simpl. lia.
  - clear Hc.
    pose proof (count_insert (holding (alter (set_subscription sub) info (heap s)))
                  (loops s) i _ (AfterCreate info) H) as Hc.
    simpl in Hc.
    rewrite sub_at_alter_eq in Hc by (by eapply Hb).
    rewrite bool_decide_eq_true_2 in Hc by (by eexists). lia.
  - rewrite Hs in Hc. rewrite bool_decide_eq_false_2 in Hc by (by intros [? ?]). lia.
  - revert Hc. case_bool_decide; lia.
  - revert Hc. case_bool_decide; lia.
  - unfold subscription_of in *. rewrite H1 in Hc.
    rewrite bool_decide_eq_false_2 in Hc by (by intros [? ?]). lia.
  - rewrite bool_decide_eq_true_2 in Hc by done.
    destruct r; simpl in *; lia.
  - lia.
  - clear Hc.
    pose proof (count_insert
                  (holding (heap s ++ [mkInfo (consumer_id i) (consumer_subject i) now None 0]))
                  (loops s) i _ (AwaitSubscribe (length (heap s))) H0) as Hc.
    simpl in Hc. lia.
Qed.

Lemma step_closed s inp s' out :
  transition cfg s inp s' out -> inv cfg s ->
  totalClosed s' + count (holding (heap s')) (loops s') <= totalCreated s'.
Proof.
  intros Htr Hinv.
  pose proof (inv_closed _ _ Hinv) as Hle.
  pose proof (step_account _ _ _ _ Htr Hinv) as Hacc.
  destruct (destroy_raised inp); lia.
Qed.

Lemma inv_step s inp s' out :
  step cfg inp s = Some (s', out) -> inv cfg s -> inv cfg s'.
Proof.
  intros Hstep%step_transition Hinv. split.
  - by eapply step_len.
  - by eapply step_bound.
  - by eapply step_distinct.
  - by eapply step_sub.
  - by eapply step_reg.
  - by eapply step_keys.
  - by eapply step_size.
  - by eapply step_closed.
Qed.

Lemma inv_run inps : forall s s' out,
  run cfg inps s = Some (s', out) -> inv cfg s -> inv cfg s'.
Proof.
  induction inps as [|inp inps IH]; intros s s' out Hrun Hinv; simpl in Hrun.
  - by injection Hrun as <- <-.
  - destruct (step cfg inp s) as [[s1 out1]|] eqn:Hstep; [|done]. simpl in Hrun.
    destruct (run cfg inps s1) as [[s2 out2]|] eqn:Hrest; [|done]. simpl in Hrun.
    injection Hrun as <- <-.
    eapply IH; [exact Hrest|]. by eapply inv_step.
Qed.

Lemma inv_reachable inps s out :
  run cfg inps init = Some (s, out) -> inv cfg s.
Proof. intros Hrun. eapply inv_run; [exact Hrun | apply inv_init]. Qed.

(** ** Runs in which the platform never refuses *)

Lemma ok_init : inv_ok init.
Proof. split; simpl; done. Qed.

Lemma ok_step s inp s' out :
  transition cfg s inp s' out -> inv cfg s -> inv_ok s ->
  succeeds inp = true -> inv_ok s'.
Proof.
  intros Htr Hinv Hok Hsucc.
  assert (destroy_raised inp = false) as Hd
    by (unfold succeeds in Hsucc; by destruct (subscribe_raised inp), (destroy_raised inp)).
  split.
  - intros j st Hj Hlive.
    pose proof (ok_live _ Hok) as Hl.
    assert (forall x, loops s !! j = Some x -> live x = true ->
                      holding (heap s') x = true) as Hold.
    { intros x Hx Hlx. rewrite <- (Hl _ _ Hx Hlx).
      apply holding_frame. intros r Hr.
      destruct (step_sub_frame _ _ _ _ Htr Hinv _ _ _ Hx Hr)
        as [H | (sub & _ & ->)]; done. }
    destruct Htr; simpl in Hj |- *; try split_lookup Hj;
      try (by apply Hold); try done.
    + simpl. rewrite sub_at_alter_eq by (by eapply (inv_bound _ _ Hinv)).
      by apply bool_decide_eq_true_2.
    + by apply (Hl i (AfterCreate info)).
    + by apply (Hl i (Lifetime info)).
  - pose proof (step_account _ _ _ _ Htr Hinv) as Hacc.
    pose proof (ok_books _ Hok) as Hb.
    rewrite Hd in Hacc. lia.
Qed.

Lemma quiescent_lookup s j st :
  quiescent s = true -> loops s !! j = Some st -> awaits_task st = true.
Proof.
  unfold quiescent. intros Hq Hj.
  apply Is_true_true_2, forallb_True in Hq.
  rewrite Forall_lookup in Hq. apply Is_true_true_1. by eapply Hq.
Qed.

(** With no refusal so far and nothing queued, the books balance. *)
Lemma ok_quiescent_leak s :
  inv cfg s -> inv_ok s -> quiescent s = true -> clientSideLeak s = 0%Z.
Proof.
  intros Hinv Hok Hq. unfold clientSideLeak.
  rewrite (inv_size _ _ Hinv), (ok_books _ Hok).
  rewrite (count_ext registered (holding (heap s)) (loops s)); [lia|].
  intros j st Hj.
  pose proof (quiescent_lookup _ _ _ Hq Hj) as Hst.
  pose proof (ok_live _ Hok _ _ Hj) as Hl.
  destruct st; simpl in *; try done; by rewrite Hl.
Qed.

Lemma step_stats s inp s' out st :
  transition cfg s inp s' out -> st ∈ stats_of out ->
  inp = Tick /\ quiescent s = true /\ s' = s /\ st_leaked st = clientSideLeak s.
Proof.
  intros Htr Hst.
  destruct Htr;
    try (match type of Hst with
         | context [if ?b then _ else _] => destruct b
         end);
    simpl in Hst; try (by apply elem_of_nil in Hst).
  apply list_elem_of_singleton in Hst as ->. done.
Qed.

Lemma ok_run inps : forall s s' out,
  run cfg inps s = Some (s', out) -> inv cfg s -> inv_ok s ->
  forallb succeeds inps = true ->
  inv_ok s' /\ forall st, st ∈ stats_of out -> st_leaked st = 0%Z.
Proof.
  induction inps as [|inp inps IH]; intros s s' out Hrun Hinv Hok Hall;
    simpl in Hrun.
  - injection Hrun as <- <-. split; [done|]. intros st Hst.
    by apply elem_of_nil in Hst.
  - destruct (step cfg inp s) as [[s1 out1]|] eqn:Hstep; [|done]. simpl in Hrun.
    destruct (run cfg inps s1) as [[s2 out2]|] eqn:Hrest; [|done]. simpl in Hrun.
    injection Hrun as <- <-.
    simpl in Hall. apply andb_prop in Hall as [Hs Hall].
    pose proof (step_transition _ _ _ _ Hstep) as Htr.
    destruct (IH _ _ _ Hrest (inv_step _ _ _ _ Hstep Hinv)
                 (ok_step _ _ _ _ Htr Hinv Hok Hs) Hall) as [Hok' Hstats].
    split; [done|]. intros st Hst.
    unfold stats_of in Hst. rewrite omap_app in Hst.
    apply elem_of_app in Hst as [Hst | Hst]; [|by apply Hstats].
    destruct (step_stats _ _ _ _ _ Htr Hst) as (_ & Hq & _ & ->).
    by apply ok_quiescent_leak.
Qed.

Lemma run_step inp rest s s1 out1 :
  step cfg inp s = Some (s1, out1) ->
  run cfg (inp :: rest) s =
  match run cfg rest s1 with
  | Some (s2, out2) => Some (s2, out1 ++ out2)
  | None => None
  end.
Proof.
  intros H. simpl. rewrite H. simpl.
  by destruct (run cfg rest s1) as [[? ?]|].
Qed.

End EngineFacts.

(** * The claims *)

(** ** Start-up *)

(** C8: the readiness poller [waitForJetStream] returns [true] right after the
    first probe that succeeds (attempt [j], after [j] failed probes each
    followed by a log line and a sleep of 2000 ms, and with no sleep after the
    successful probe); when all [maxRetries] probes fail it returns [false]
    without raising, having slept 2000 ms after every failed probe. *)
Theorem C8_waitForJetStream (platform : Platform) (maxRetries : nat) (w : world) :
  (forall j,
     j < maxRetries ->
     (forall k, k < j -> list_reply platform (lists_made w + k) <> None) ->
     list_reply platform (lists_made w + j) = None ->
     waitForJetStream platform maxRetries w =
     (Returned true,
      mkWorld (lists_made w + S j) (adds_made w)
              (effects w ++ waiting_trace maxRetries 0 j ++ [StreamsListNext])))
  /\ ((forall k, k < maxRetries -> list_reply platform (lists_made w + k) <> None) ->
      waitForJetStream platform maxRetries w =
      (Returned false,
       mkWorld (lists_made w + maxRetries) (adds_made w)
               (effects w ++ waiting_trace maxRetries 0 maxRetries))).
Proof.
  split.
  - intros j Hj Hfail Hok. by apply wait_loop_first_success.
  - intros Hfail. by apply wait_loop_exhausted.
Qed.

Lemma C8_witness :
  waitForJetStream slow_platform 30 world0 =
  (Returned true,
   mkWorld 3 0
     [StreamsListNext; Console (LineWaiting 1 30); Sleep 2000;
      StreamsListNext; Console (LineWaiting 2 30); Sleep 2000;
      StreamsListNext])
  /\ waitForJetStream dead_platform 3 world0 =
     (Returned false,
      mkWorld 3 0
        [StreamsListNext; Console (LineWaiting 1 3); Sleep 2000;
         StreamsListNext; Console (LineWaiting 2 3); Sleep 2000;
         StreamsListNext; Console (LineWaiting 3 3); Sleep 2000]).
Proof.
  split.
  - apply (proj1 (C8_waitForJetStream slow_platform 30 world0) 2).
    + lia.
    + intros [|[|k]] Hk; simpl; [done | done | lia].
    + reflexivity.
  - apply (proj2 (C8_waitForJetStream dead_platform 3 world0)).
    intros k Hk. simpl. done.
Defined.

(** C9: when a [streams.add] of [createStream] fails with the duplicate signal
    (a message containing "already in use", or the code "10058"), whether on
    the first attempt or after [j] other failures, [createStream] logs that
    the stream exists and returns normally, with no sleep and no further
    attempt; so a first call that creates the stream followed by a second call
    to which the platform answers with the duplicate signal both return
    normally, after one attempt each. *)
Theorem C9_createStream_idempotent (cfg : Config) (platform : Platform) :
  (forall w j e,
     j < 10 ->
     (forall k, k < j -> other_failure platform (adds_made w + k)) ->
     add_reply platform (adds_made w + j) = Some e ->
     duplicate_signal e ->
     createStream cfg platform w =
     (Returned tt,
      mkWorld (lists_made w) (adds_made w + S j)
        (effects w ++ failing_trace cfg platform (adds_made w) 0 j ++
         [StreamsAdd (stream_config cfg);
          Console (LineStreamExists (STREAM_NAME cfg))])))
  /\ (forall w e,
        add_reply platform (adds_made w) = None ->
        add_reply platform (S (adds_made w)) = Some e ->
        duplicate_signal e ->
        (createStream cfg platform ;; createStream cfg platform) w =
        (Returned tt,
         mkWorld (lists_made w) (adds_made w + 2)
           (effects w ++
            [StreamsAdd (stream_config cfg);
             Console (LineStreamCreated (STREAM_NAME cfg));
             StreamsAdd (stream_config cfg);
             Console (LineStreamExists (STREAM_NAME cfg))]))).
Proof.
  assert (forall e, duplicate_signal e -> already_exists e = true) as Hdup.
  { intros e [(m & Hm & Hin) | Hc]; unfold already_exists.
    - by rewrite Hm, Hin.
    - rewrite bool_decide_eq_true_2 by done. apply orb_true_r. }
  assert (forall w j e,
     j < 10 ->
     (forall k, k < j -> other_failure platform (adds_made w + k)) ->
     add_reply platform (adds_made w + j) = Some e ->
     duplicate_signal e ->
     createStream cfg platform w =
     (Returned tt,
      mkWorld (lists_made w) (adds_made w + S j)
        (effects w ++ failing_trace cfg platform (adds_made w) 0 j ++
         [StreamsAdd (stream_config cfg);
          Console (LineStreamExists (STREAM_NAME cfg))]))) as Hcall.
  { intros w j e Hj Hfail He Hsig. unfold createStream.
    rewrite (create_loop_settled cfg platform j 10 0 w Hj Hfail) by eauto.
    by rewrite He. }
  split; [exact Hcall|].
  intros w e Hfirst Hsecond Hsig.
  assert (createStream cfg platform w =
          (Returned tt,
           mkWorld (lists_made w) (S (adds_made w))
             (effects w ++ [StreamsAdd (stream_config cfg);
                            Console (LineStreamCreated (STREAM_NAME cfg))]))) as Hw.
  { unfold createStream.
    rewrite (create_loop_settled cfg platform 0 10 0 w ltac:(lia)
               ltac:(intros; lia) ltac:(left; by rewrite Nat.add_0_r)).
    rewrite Nat.add_0_r, Hfirst. simpl. f_equal. f_equal. lia. }
  rewrite (bind_Returned _ _ _ _ _ Hw).
  rewrite (Hcall _ 0 e); simpl; rewrite ?Nat.add_0_r; try done; try lia.
  rewrite <- app_assoc. simpl. f_equal. f_equal. lia.
Qed.

Lemma C9_witness :
  createStream default_config fresh_platform
    (mkWorld 0 1 [StreamsAdd (stream_config default_config);
                  Console (LineStreamCreated "events")]) =
  (Returned tt,
   mkWorld 0 2
     [StreamsAdd (stream_config default_config); Console (LineStreamCreated "events");
      StreamsAdd (stream_config default_config); Console (LineStreamExists "events")])
  /\ (createStream default_config fresh_platform ;;
      createStream default_config fresh_platform) world0 =
     (Returned tt,
      mkWorld 0 2
        [StreamsAdd (stream_config default_config); Console (LineStreamCreated "events");
         StreamsAdd (stream_config default_config); Console (LineStreamExists "events")]).
Proof.
  assert (duplicate_signal in_use_error) as Hsig
    by (left; eexists; split; reflexivity).
  destruct (C9_createStream_idempotent default_config fresh_platform) as [Ha Hb].
  split.
  - apply (Ha (mkWorld 0 1 [StreamsAdd (stream_config default_config);
                            Console (LineStreamCreated "events")]) 0 in_use_error).
    + lia.
    + intros k Hk. lia.
    + reflexivity.
    + exact Hsig.
  - exact (Hb world0 in_use_error eq_refl eq_refl Hsig).
Defined.

(** C3, as stated, fails: on a platform where every [streams.add] times out,
    [createStream] does not raise but returns normally, and the start-up does
    not terminate the process but goes on to start the consumer loops. *)
Lemma C3_counterexample :
  fst (createStream default_config failing_platform world0) = Returned tt
  /\ (forall e, fst (createStream default_config failing_platform world0) <> Thrown e)
  /\ fst (top_level default_config failing_platform world0) = Returned Churning
  /\ (forall c, fst (top_level default_config failing_platform world0) <> Exited c).
Proof.
  assert (fst (createStream default_config failing_platform world0) = Returned tt)
    as H1 by (vm_compute; reflexivity).
  assert (fst (top_level default_config failing_platform world0) = Returned Churning)
    as H2 by (vm_compute; reflexivity).
  split; [exact H1|]. split; [intros e; rewrite H1; discriminate|].
  split; [exact H2|]. intros c. rewrite H2. discriminate.
Qed.

(** C3, amended: when [streams.add] fails with another error than the
    duplicate signal on each of the 10 attempts, [createStream] logs each
    failure, sleeps 3000 ms after each and then returns normally: no error is
    propagated. Whatever [streams.add] answers, [createStream] returns
    normally, and the completion of the start-up does not depend on those
    answers: for every platform the process exits with code 1 exactly when
    [connect] or [jetstreamManager] raises or none of the 30 readiness probes
    succeeds, and otherwise [main] goes on to start the consumer loops (or the
    publisher). *)
Theorem C3_createStream_gives_up (cfg : Config) (platform : Platform) :
  (forall w : world,
     (forall k, k < 10 -> other_failure platform (adds_made w + k)) ->
     createStream cfg platform w =
     (Returned tt,
      mkWorld (lists_made w) (adds_made w + 10)
        (effects w ++ failing_trace cfg platform (adds_made w) 0 10)))
  /\ (forall w : world, exists w', createStream cfg platform w = (Returned tt, w'))
  /\ fst (top_level cfg platform world0) = startup_outcome cfg platform.
Proof.
  split; [|split].
  - intros w Hfail. by apply create_loop_exhausted.
  - intros w. destruct (create_loop_returns cfg platform 10 0 w) as (w' & Hw' & _).
    by exists w'.
  - apply top_level_outcome.
Qed.

Lemma C3_witness :
  createStream default_config failing_platform world0 =
  (Returned tt,
   mkWorld 0 10 (failing_trace default_config failing_platform 0 0 10))
  /\ fst (top_level default_config failing_platform world0) = Returned Churning.
Proof.
  destruct (C3_createStream_gives_up default_config failing_platform)
    as (Hgives_up & _ & Houtcome).
  split.
  - apply (Hgives_up world0).
    intros k Hk. exists timeout_error. split; reflexivity.
  - exact Houtcome.
Defined.

(** ** The churn engine *)

(** C1, as stated, fails: with loop 0 suspended in [destroy], a [destroy] that
    raises is followed by the removal of the entry, but [totalClosed] is not
    incremented. *)
Lemma C1_counterexample :
  loops destroying_state !! 0 = Some (AwaitDestroy 0)
  /\ subscription_of destroying_state 0 = Some 7
  /\ activeConsumers destroying_state !! consumer_id 0 = Some 0
  /\ totalClosed destroying_state = 0
  /\ (fun r => (activeConsumers r.1 !! consumer_id 0, totalClosed r.1)) <$>
       run cfg2 [Wake 0 (DestroySettled (Some timeout_error)); Wake 0 Continuation]
           destroying_state
     = Some (None, 0)
  /\ (fun r => totalClosed r.1) <$>
       run cfg2 [Wake 0 (DestroySettled (Some timeout_error)); Wake 0 Continuation]
           destroying_state
     <> Some (S (totalClosed destroying_state)).
Proof. vm_compute. repeat split. discriminate. Qed.

(** C1, amended: in the DESTROYING step of a cycle with an active
    subscription, whether [destroy] returns normally or raises, the failure is
    swallowed, the slot's entry is removed from [activeConsumers] and
    [totalReconnects] is incremented; [totalClosed] is incremented when
    [destroy] returns normally and left as it is when [destroy] raises. *)
Theorem C1_destroying_step (cfg : Config) (inps : list input) (s : state)
    (out : list effect) (i info : nat) (r : option JsError) :
  run cfg inps init = Some (s, out) ->
  loops s !! i = Some (AwaitDestroy info) ->
  exists s',
    run cfg [Wake i (DestroySettled r); Wake i Continuation] s
    = Some (s', [Sleep (RECONNECT_DELAY_MS cfg)])
    /\ activeConsumers s !! consumer_id i = Some info
    /\ activeConsumers s' !! consumer_id i = None
    /\ loops s' !! i = Some Cooldown
    /\ totalReconnects s' = S (totalReconnects s)
    /\ totalClosed s' = match r with
                        | None => S (totalClosed s)
                        | Some _ => totalClosed s
                        end.
Proof.
  intros Hrun Hi.
  pose proof (inv_reachable _ _ _ _ Hrun) as Hinv.
  pose proof (lookup_lt_Some _ _ _ Hi) as Hlt.
  eexists. split; [|split; [|split; [|split; [|split]]]].
  - simpl. rewrite Hi. simpl.
    rewrite list_lookup_insert_eq
      by (destruct r; simpl; done).
    simpl. reflexivity.
  - by rewrite (inv_reg _ _ Hinv _ _ Hi).
  - simpl. apply lookup_delete_eq.
  - simpl. apply list_lookup_insert_eq. rewrite length_insert.
    destruct r; simpl; done.
  - simpl. by destruct r.
  - simpl. by destruct r.
Qed.

Lemma C1_witness :
  exists s',
    run cfg2 [Wake 0 (DestroySettled (Some timeout_error)); Wake 0 Continuation]
        destroying_state
    = Some (s', [Sleep 100])
    /\ activeConsumers destroying_state !! consumer_id 0 = Some 0
    /\ activeConsumers s' !! consumer_id 0 = None
    /\ loops s' !! 0 = Some Cooldown
    /\ totalReconnects s' = S (totalReconnects destroying_state)
    /\ totalClosed s' = totalClosed destroying_state.
Proof.
  apply (C1_destroying_step cfg2 to_destroying destroying_state
           [Subscribe "events.sensor.station1.>"; Sleep 100; Sleep 5000; Destroy 7]
           0 0 (Some timeout_error)).
  - vm_compute. reflexivity.
  - vm_compute. reflexivity.
Defined.

(** C2: [totalClosed] is incremented exactly when the [destroy] call of an
    existing subscription returns without raising: a step adds one to
    [totalClosed] if it is the resumption, by a [destroy] that resolved, of a
    loop suspended in [destroy] (whose object then has a subscription), and
    leaves [totalClosed] as it is otherwise, in particular when [destroy]
    raises. *)
Theorem C2_totalClosed_step (cfg : Config) (inps : list input) (s : state)
    (out : list effect) (inp : input) (s' : state) (out' : list effect) :
  run cfg inps init = Some (s, out) ->
  step cfg inp s = Some (s', out') ->
  totalClosed s' = (if destroy_resolved inp then S (totalClosed s) else totalClosed s)
  /\ (destroy_resolved inp = true ->
      exists i info sub,
        inp = Wake i (DestroySettled None)
        /\ loops s !! i = Some (AwaitDestroy info)
        /\ subscription_of s info = Some sub)
  /\ (destroy_raised inp = true -> totalClosed s' = totalClosed s).
Proof.
  intros Hrun Hstep.
  pose proof (inv_reachable _ _ _ _ Hrun) as Hinv.
  apply step_transition in Hstep.
  destruct Hstep; try (split; [reflexivity | split; [discriminate | reflexivity]]).
  destruct r as [e|].
  - split; [reflexivity | split; [discriminate | reflexivity]].
  - split; [reflexivity|]. split; [|discriminate]. intros _.
    destruct (inv_sub _ _ Hinv _ _ H) as [sub Hsub].
    by exists i, info, sub.
Qed.

Lemma C2_witness :
  totalClosed (with_loops (<[0 := AfterClose 0]> (loops destroying_state))
                 (closeConsumer_resume None destroying_state))
  = S (totalClosed destroying_state)
  /\ totalClosed (with_loops (<[0 := AfterClose 0]> (loops destroying_state))
                    (closeConsumer_resume (Some timeout_error) destroying_state))
     = totalClosed destroying_state.
Proof.
  assert (run cfg2 to_destroying init
          = Some (destroying_state,
                  [Subscribe "events.sensor.station1.>"; Sleep 100; Sleep 5000;
                   Destroy 7])) as Hrun
    by (vm_compute; reflexivity).
  split.
  - assert (step cfg2 (Wake 0 (DestroySettled None)) destroying_state
            = Some (with_loops (<[0 := AfterClose 0]> (loops destroying_state))
                      (closeConsumer_resume None destroying_state), [])) as Hstep
      by (vm_compute; reflexivity).
    exact (proj1 (C2_totalClosed_step _ _ _ _ _ _ _ Hrun Hstep)).
  - assert (step cfg2 (Wake 0 (DestroySettled (Some timeout_error))) destroying_state
            = Some (with_loops (<[0 := AfterClose 0]> (loops destroying_state))
                      (closeConsumer_resume (Some timeout_error) destroying_state),
                    [])) as Hstep
      by (vm_compute; reflexivity).
    exact (proj1 (C2_totalClosed_step _ _ _ _ _ _ _ Hrun Hstep)).
Defined.

(** C5: in every state the interleaved execution of the loops can reach,
    [activeConsumers] has at most NUM_CONSUMERS entries; every key is the id
    of one of the started loops, and the entry under the id of loop [i] is the
    object of loop [i]'s current cycle, there exactly between the loop's [set]
    and its [delete]. *)
Theorem C5_registry_bounded (cfg : Config) (inps : list input) (s : state)
    (out : list effect) :
  run cfg inps init = Some (s, out) ->
  size (activeConsumers s) <= NUM_CONSUMERS cfg
  /\ (forall k r,
        activeConsumers s !! k = Some r ->
        exists i st,
          i < NUM_CONSUMERS cfg /\ k = consumer_id i
          /\ loops s !! i = Some st /\ registered st = true /\ ref_of st = Some r)
  /\ (forall i st,
        loops s !! i = Some st ->
        activeConsumers s !! consumer_id i = if registered st then ref_of st else None).
Proof.
  intros Hrun.
  pose proof (inv_reachable _ _ _ _ Hrun) as Hinv.
  pose proof (inv_len _ _ Hinv) as Hlen.
  split; [|split].
  - rewrite (inv_size _ _ Hinv).
    pose proof (count_le_length registered (loops s)). lia.
  - intros k r Hk.
    destruct (inv_keys _ _ Hinv _ _ Hk) as (i & Hi & ->).
    destruct (lookup_lt_is_Some_2 _ _ Hi) as [st Hst].
    exists i, st. split; [lia|]. split; [done|]. split; [done|].
    pose proof (inv_reg _ _ Hinv _ _ Hst) as Hreg. rewrite Hk in Hreg.
    by destruct (registered st).
  - apply (inv_reg _ _ Hinv).
Qed.

Lemma C5_witness :
  size (activeConsumers null_entry_state) <= NUM_CONSUMERS cfg2
  /\ (forall k r,
        activeConsumers null_entry_state !! k = Some r ->
        exists i st,
          i < NUM_CONSUMERS cfg2 /\ k = consumer_id i
          /\ loops null_entry_state !! i = Some st
          /\ registered st = true /\ ref_of st = Some r)
  /\ (forall i st,
        loops null_entry_state !! i = Some st ->
        activeConsumers null_entry_state !! consumer_id i
        = if registered st then ref_of st else None).
Proof.
  apply (C5_registry_bounded cfg2 to_null_entry null_entry_state
           (match run cfg2 to_null_entry init with
            | Some (_, out) => out
            | None => []
            end)).
  vm_compute. reflexivity.
Defined.

(** C6: in every reachable state [totalClosed] is at most [totalCreated]; more
    precisely [totalClosed] plus the number of loops that hold a created
    subscription whose [destroy] has not settled is at most [totalCreated]. *)
Theorem C6_closed_le_created (cfg : Config) (inps : list input) (s : state)
    (out : list effect) :
  run cfg inps init = Some (s, out) ->
  totalClosed s <= totalCreated s
  /\ totalClosed s + count (holding (heap s)) (loops s) <= totalCreated s.
Proof.
  intros Hrun.
  pose proof (inv_closed _ _ (inv_reachable _ _ _ _ Hrun)). lia.
Qed.

Lemma C6_witness :
  totalClosed second_cycle_state <= totalCreated second_cycle_state
  /\ totalClosed second_cycle_state
     + count (holding (heap second_cycle_state)) (loops second_cycle_state)
     <= totalCreated second_cycle_state.
Proof.
  apply (C6_closed_le_created cfg2 to_second_cycle second_cycle_state
           second_cycle_output).
  vm_compute. reflexivity.
Defined.

(** C7: in an execution in which no [js.subscribe] and no [destroy] raises,
    every line that [printStats] prints shows a leak of 0, and
    [totalCreated - totalClosed - activeConsumers.size] is 0 in every state in
    which [printStats] can run (no continuation of a loop queued). *)
Theorem C7_no_leak_when_all_succeed (cfg : Config) (inps : list input) (s : state)
    (out : list effect) :
  run cfg inps init = Some (s, out) ->
  forallb succeeds inps = true ->
  (forall st, st ∈ stats_of out -> st_leaked st = 0%Z)
  /\ (quiescent s = true -> clientSideLeak s = 0%Z).
Proof.
  intros Hrun Hall.
  destruct (ok_run cfg inps init s out Hrun (inv_init cfg) ok_init Hall)
    as [Hok Hstats].
  split; [exact Hstats|].
  intros Hq. apply (ok_quiescent_leak cfg); [|done|done].
  by eapply inv_reachable.
Qed.

Lemma C7_witness :
  (forall st, st ∈ stats_of second_cycle_output -> st_leaked st = 0%Z)
  /\ (quiescent second_cycle_state = true ->
      clientSideLeak second_cycle_state = 0%Z).
Proof.
  apply (C7_no_leak_when_all_succeed cfg2 to_second_cycle second_cycle_state
           second_cycle_output).
  - vm_compute. reflexivity.
  - vm_compute. reflexivity.
Defined.

(** C10: there is an execution (two loops; the create of loop 0 is refused,
    everything else succeeds) in which the [ConsumerInfo] of the failed
    create, with [subscription] null, is in [activeConsumers] during the
    lifetime sleep, [printStats] runs in that window and prints a leak of -1,
    and the entry is gone, and the leak back to 0, once the loop has been
    through [closeConsumer] and [delete]. *)
Theorem C10_null_entry_negative_leak :
  (exists out, run cfg2 to_null_entry init = Some (null_entry_state, out)
               /\ st_leaked <$> stats_of out = [(-1)%Z])
  /\ succeeds <$> to_null_entry = [true; true; false; true; true; true; true; true]
  /\ loops null_entry_state = [Lifetime 0; Lifetime 1]
  /\ activeConsumers null_entry_state !! consumer_id 0 = Some 0
  /\ heap null_entry_state !! 0
     = Some (mkInfo "consumer_0" "events.sensor.station1.>" 0 None 0)
  /\ subscription_of null_entry_state 0 = None
  /\ totalCreated null_entry_state = 1
  /\ totalClosed null_entry_state = 0
  /\ size (activeConsumers null_entry_state) = 2
  /\ clientSideLeak null_entry_state = (-1)%Z
  /\ (fun r => (activeConsumers r.1 !! consumer_id 0, clientSideLeak r.1)) <$>
       run cfg2 [Wake 0 (TimerFired 5000); Wake 0 Continuation] null_entry_state
     = Some (None, 0%Z).
Proof.
  split.
  - eexists. split; vm_compute; reflexivity.
  - vm_compute. repeat split.
Qed.

(** * Further properties *)

Lemma formatDuration_parts (h m s r : Z) :
  (0 <= h)%Z -> (0 <= m < 60)%Z -> (0 <= s < 60)%Z -> (0 <= r < 1000)%Z ->
  let ms := ((((h * 60 + m) * 60 + s) * 1000) + r)%Z in
  (ms `div` 1000 = (h * 60 + m) * 60 + s)%Z
  /\ ((ms `div` 1000) `div` 60 = h * 60 + m)%Z
  /\ (((ms `div` 1000) `div` 60) `div` 60 = h)%Z
  /\ (((ms `div` 1000) `div` 60) `rem` 60 = m)%Z
  /\ ((ms `div` 1000) `rem` 60 = s)%Z.
Proof.
  intros Hh Hm Hs Hr ms.
  assert (ms `div` 1000 = (h * 60 + m) * 60 + s)%Z as H1.
  { symmetry. apply (Z.div_unique _ _ _ r); unfold ms; lia. }
  assert (((h * 60 + m) * 60 + s) `div` 60 = h * 60 + m)%Z as H2.
  { symmetry. apply (Z.div_unique _ _ _ s); lia. }
  assert ((h * 60 + m) `div` 60 = h)%Z as H3.
  { symmetry. apply (Z.div_unique _ _ _ m); lia. }
  rewrite H1, H2, H3. repeat split.
  - symmetry. apply (Z.rem_unique _ _ h); lia.
  - symmetry. apply (Z.rem_unique _ _ (h * 60 + m)); lia.
Qed.

(** X1: for durations that a JavaScript number holds exactly (below 2^53
    ms in magnitude), [formatDuration] prints a duration of [h] hours, [m]
    minutes, [s] seconds and [r] milliseconds (with [m], [s] below 60 and [r]
    below 1000) as "<h>h <m>m" when [h] is positive, dropping the seconds; a
    duration below one hour as "<m>m <s>s" when [m] is positive; a duration
    below one minute as "<s>s"; and a negative duration as the floor of its
    seconds followed by "s". *)
Theorem X1_formatDuration (h m s r : Z) :
  (0 <= m < 60)%Z -> (0 <= s < 60)%Z -> (0 <= r < 1000)%Z ->
  ((0 < h)%Z ->
   safe_integer ((((h * 60 + m) * 60 + s) * 1000) + r) ->
   formatDuration ((((h * 60 + m) * 60 + s) * 1000) + r)
   = pretty h +:+ "h " +:+ pretty m +:+ "m")
  /\ ((0 < m)%Z ->
      formatDuration (((m * 60 + s) * 1000) + r)
      = pretty m +:+ "m " +:+ pretty s +:+ "s")
  /\ formatDuration (s * 1000 + r) = pretty s +:+ "s"
  /\ (forall ms, (ms < 0)%Z -> safe_integer ms ->
        formatDuration ms = pretty (ms `div` 1000)%Z +:+ "s").
Proof.
  intros Hm Hs Hr. split; [|split; [|split]].
  - intros Hh _.
    destruct (formatDuration_parts h m s r) as (H1 & H2 & H3 & H4 & H5); try lia.
    unfold formatDuration. cbv zeta in *. rewrite H4, H3, H2.
    by rewrite (proj2 (Z.ltb_lt 0 h) Hh).
  - intros Hm0.
    destruct (formatDuration_parts 0 m s r) as (H1 & H2 & H3 & H4 & H5); try lia.
    cbv zeta in *. rewrite Z.mul_0_l, Z.add_0_l in *.
    unfold formatDuration. rewrite H5, H3, H2.
    by rewrite Z.ltb_irrefl, (proj2 (Z.ltb_lt 0 m) Hm0).
  - destruct (formatDuration_parts 0 0 s r) as (H1 & H2 & H3 & H4 & H5); try lia.
    cbv zeta in *. rewrite !Z.mul_0_l, !Z.add_0_l in *.
    unfold formatDuration. rewrite H3, H2, H1. reflexivity.
  - intros ms Hneg _. unfold formatDuration.
    assert (ms `div` 1000 < 0)%Z as H1 by (apply Z.div_lt_upper_bound; lia).
    assert ((ms `div` 1000) `div` 60 < 0)%Z as H2
      by (apply Z.div_lt_upper_bound; lia).
    assert (((ms `div` 1000) `div` 60) `div` 60 < 0)%Z as H3
      by (apply Z.div_lt_upper_bound; lia).
    rewrite (proj2 (Z.ltb_ge 0 _)) by lia.
    by rewrite (proj2 (Z.ltb_ge 0 _)) by lia.
Qed.

Lemma X1_witness :
  formatDuration 3723456 = "1h 2m"
  /\ formatDuration 123456 = "2m 3s"
  /\ formatDuration 3456 = "3s"
  /\ formatDuration (-1) = "-1s".
Proof.
  assert (0 <= 2 < 60)%Z as Hm by lia.
  assert (0 <= 3 < 60)%Z as Hs by lia.
  assert (0 <= 456 < 1000)%Z as Hr by lia.
  assert (safe_integer 3723456) as Hsafe by (unfold safe_integer; lia).
  assert (safe_integer (-1)) as Hsafe' by (unfold safe_integer; lia).
  destruct (X1_formatDuration 1 2 3 456 Hm Hs Hr) as (H1 & H2 & H3 & H4).
  split; [exact (H1 ltac:(lia) Hsafe)|]. split; [exact (H2 ltac:(lia))|].
  split; [exact H3|]. exact (H4 (-1)%Z ltac:(lia) Hsafe').
Defined.

Lemma subject_cases i :
  consumer_subject i ∈ SUBJECTS
  /\ SUBJECTS !! (i `mod` 6) = Some (consumer_subject i).
Proof.
  unfold consumer_subject. simpl length.
  pose proof (Nat.mod_upper_bound i 6 ltac:(lia)) as Hlt.
  destruct (i `mod` 6) as [|[|[|[|[|[|n]]]]]] eqn:E; try lia;
    (split; [|reflexivity]); simpl; set_solver.
Qed.

(** X2: the subject of loop [i] is always one of the six SUBJECTS (the lookup
    at [i % 6] is never out of range), it repeats with period 6, and the ids
    of two loops are equal only if the loops are the same. *)
Theorem X2_consumer_identity (i j : nat) :
  consumer_subject i ∈ SUBJECTS
  /\ SUBJECTS !! (i `mod` 6) = Some (consumer_subject i)
  /\ consumer_subject (i + 6) = consumer_subject i
  /\ (consumer_id i = consumer_id j <-> i = j).
Proof.
  destruct (subject_cases i) as [H1 H2]. split; [done|]. split; [done|]. split.
  - unfold consumer_subject. simpl length.
    replace (i + 6) with (i + 1 * 6) by lia. by rewrite Nat.Div0.mod_add.
  - split; [apply consumer_id_inj | by intros ->].
Qed.

Lemma prefix_app n : forall h,
  String.prefix n h = true <-> exists post, h = n +:+ post.
Proof.
  induction n as [|a n IH]; intros h.
  - split; [intros _; by exists h | intros _; by destruct h].
  - destruct h as [|b h]; simpl.
    + split; [done | by intros [post ?]].
    + destruct (Ascii.ascii_dec a b) as [->|Hne].
      * rewrite IH. split; intros [post Hp]; exists post.
        -- change (String b n +:+ post) with (String b (n +:+ post)).
           by rewrite Hp.
        -- change (String b n +:+ post) with (String b (n +:+ post)) in Hp.
           by injection Hp.
      * split; [done|]. intros [post Hp].
        change (String a n +:+ post) with (String a (n +:+ post)) in Hp.
        congruence.
Qed.

Lemma includes_substring h : forall n,
  includes h n = true <-> exists pre post, h = pre +:+ n +:+ post.
Proof.
  induction h as [|b h IH]; intros n.
  - change (includes "" n) with (String.prefix n "" || false).
    rewrite orb_false_r, prefix_app. split.
    + intros [post Hp]. by exists "", post.
    + intros (pre & post & Hp). destruct pre as [|c pre]; [by exists post | done].
  - change (includes (String b h) n)
      with (String.prefix n (String b h) || includes h n).
    rewrite orb_true_iff, prefix_app, IH. split.
    + intros [[post Hp] | (pre & post & Hp)].
      * by exists "", post.
      * exists (String b pre), post.
        change (String b pre +:+ n +:+ post) with (String b (pre +:+ n +:+ post)).
        by rewrite Hp.
    + intros (pre & post & Hp). destruct pre as [|c pre].
      * left. by exists post.
      * right. exists pre, post.
        change (String c pre +:+ n +:+ post) with (String c (pre +:+ n +:+ post)) in Hp.
        congruence.
Qed.

(** X3: line 71 takes an error for the duplicate signal exactly when its
    message has "already in use" somewhere inside it, or its code is the
    string "10058"; an error without a message is recognised by its code
    only. *)
Theorem X3_already_exists (e : JsError) :
  already_exists e = true
  <-> (exists pre post, message e = Some (pre +:+ "already in use" +:+ post))
      \/ code e = Some "10058".
Proof.
  unfold already_exists. rewrite orb_true_iff, bool_decide_eq_true.
  destruct (message e) as [m|].
  - rewrite includes_substring. split.
    + intros [(pre & post & ->) | Hc]; [left; by exists pre, post | by right].
    + intros [(pre & post & [= ->]) | Hc]; [left; by exists pre, post | by right].
  - split.
    + intros [? | Hc]; [done | by right].
    + intros [(pre & post & ?) | Hc]; [done | by right].
Qed.

(** X4: when [streams.add] fails [j] times (less than 10) with errors other
    than the duplicate signal and then succeeds, [createStream] has logged
    each failure and slept 3000 ms after each, logs that the stream is
    created and returns after [j + 1] attempts, without using the attempts
    that are left. *)
Theorem X4_createStream_retries (cfg : Config) (platform : Platform) (w : world) (j : nat) :
  j < 10 ->
  (forall k, k < j -> other_failure platform (adds_made w + k)) ->
  add_reply platform (adds_made w + j) = None ->
  createStream cfg platform w =
  (Returned tt,
   mkWorld (lists_made w) (adds_made w + S j)
     (effects w ++ failing_trace cfg platform (adds_made w) 0 j ++
      [StreamsAdd (stream_config cfg);
       Console (LineStreamCreated (STREAM_NAME cfg))])).
Proof.
  intros Hj Hfail Hok. unfold createStream.
  rewrite (create_loop_settled cfg platform j 10 0 w Hj Hfail) by (by left).
  by rewrite Hok.
Qed.

Lemma X4_witness :
  createStream default_config flaky_platform world0 =
  (Returned tt,
   mkWorld 0 3
     (failing_trace default_config flaky_platform 0 0 2 ++
      [StreamsAdd (stream_config default_config);
       Console (LineStreamCreated "events")])).
Proof.
  apply (X4_createStream_retries default_config flaky_platform world0 2).
  - lia.
  - intros [|[|k]] Hk; try lia; exists timeout_error; split; reflexivity.
  - reflexivity.
Defined.

Lemma slept_app l1 l2 : slept (l1 ++ l2) = (slept l1 + slept l2)%Z.
Proof.
  induction l1 as [|e l1 IH]; simpl; [done|].
  destruct e; rewrite IH; lia.
Qed.

Lemma within_ret {A} (a : A) : within (ret a) 0 0 0.
Proof. intros w. simpl. lia. Qed.

Lemma within_exit {A} c : within (@process_exit A c) 0 0 0.
Proof. intros w. simpl. lia. Qed.

Lemma within_settle r : within (settle r) 0 0 0.
Proof. intros w. destruct r; simpl; lia. Qed.

Lemma within_sleep ms : within (sleep ms) 0 0 ms.
Proof. intros w. simpl. rewrite slept_app. simpl. lia. Qed.

Lemma within_emit e :
  (forall ms, e <> Sleep ms) -> within (emit e) 0 0 0.
Proof.
  intros He w. simpl. rewrite slept_app.
  destruct e; simpl; try lia. by destruct (He ms).
Qed.

Lemma within_console l : within (console l) 0 0 0.
Proof. by apply within_emit. Qed.

Lemma within_bind {A B} (m : M A) (k : A -> M B) p1 a1 s1 p2 a2 s2 :
  within m p1 a1 s1 -> (forall x, within (k x) p2 a2 s2) -> (0 <= s2)%Z ->
  within (bind m k) (p1 + p2) (a1 + a2) (s1 + s2).
Proof.
  intros Hm Hk Hs w. specialize (Hm w). unfold bind.
  destruct (m w) as [[x|e|c] w1]; simpl in *; [|lia..].
  specialize (Hk x w1). lia.
Qed.

Lemma within_try {A} (m : M A) (h : JsError -> M A) p1 a1 s1 p2 a2 s2 :
  within m p1 a1 s1 -> (forall e, within (h e) p2 a2 s2) -> (0 <= s2)%Z ->
  within (try_catch m h) (p1 + p2) (a1 + a2) (s1 + s2).
Proof.
  intros Hm Hh Hs w. specialize (Hm w). unfold try_catch.
  destruct (m w) as [[x|e|c] w1]; simpl in *; [lia| |lia].
  specialize (Hh e w1). lia.
Qed.

Lemma within_weaken {A} (m : M A) p a s p' a' s' :
  within m p a s -> p <= p' -> a <= a' -> (s <= s')%Z -> within m p' a' s'.
Proof. intros Hm ? ? ? w. specialize (Hm w). lia. Qed.

Lemma within_if {A} (b : bool) (m1 m2 : M A) p1 a1 s1 p2 a2 s2 :
  within m1 p1 a1 s1 -> within m2 p2 a2 s2 ->
  within (if b then m1 else m2) (p1 `max` p2) (a1 `max` a2) (s1 `max` s2)%Z.
Proof. intros H1 H2 w. specialize (H1 w). specialize (H2 w). destruct b; lia. Qed.

Lemma within_for {A} (body : nat -> M (option A)) (after : M A) p a s n :
  (forall i, within (body i) p a s) -> within after 0 0 0 -> (0 <= s)%Z ->
  forall i, within (for_loop n i body after) (n * p) (n * a) (Z.of_nat n * s).
Proof.
  intros Hbody Hafter Hs. induction n as [|n IH]; intros i.
  - simpl. exact Hafter.
  - simpl for_loop.
    eapply within_weaken.
    + eapply within_bind; [apply Hbody | | ].
      * intros [x|]; [|apply IH].
        intros w. simpl. lia.
      * lia.
    + lia.
    + lia.
    + lia.
Qed.

Ltac budget :=
  lazymatch goal with
  | |- within (bind _ _) _ _ _ =>
      eapply within_bind; [budget | intros; budget | simpl; lia]
  | |- within (try_catch _ _) _ _ _ =>
      eapply within_try; [budget | intros; budget | simpl; lia]
  | |- within (if _ then _ else _) _ _ _ =>
      eapply within_if; budget
  | |- within (for_loop _ _ _ _) _ _ _ =>
      eapply within_for; [intros; budget | budget | simpl; lia]
  | |- within (ret _) _ _ _ => apply within_ret
  | |- within (process_exit _) _ _ _ => apply within_exit
  | |- within (settle _) _ _ _ => apply within_settle
  | |- within (sleep _) _ _ _ => apply within_sleep
  | |- within (console _) _ _ _ => apply within_console
  | |- within (emit _) _ _ _ => apply within_emit; intros; discriminate
  | |- _ => eassumption
  end.

Section Budgets.

Variable cfg : Config.
Variable platform : Platform.

Lemma within_probe : within (await_streams_list_next platform) 1 0 0.
Proof.
  intros w. unfold await_streams_list_next.
  destruct (list_reply platform (lists_made w)); simpl;
    rewrite slept_app; simpl; lia.
Qed.

Lemma within_add sc : within (await_streams_add platform sc) 0 1 0.
Proof.
  intros w. unfold await_streams_add.
  destruct (add_reply platform (adds_made w)); simpl;
    rewrite slept_app; simpl; lia.
Qed.

Lemma within_waitForJetStream n :
  within (waitForJetStream platform n) n 0 (Z.of_nat n * 2000).
Proof.
  pose proof within_probe as Hp.
  eapply within_weaken.
  - unfold waitForJetStream, waitForJetStream_body. budget.
  - simpl. lia.
  - simpl. lia.
  - simpl. lia.
Qed.

Lemma within_createStream : within (createStream cfg platform) 0 10 30000.
Proof.
  pose proof (within_add (stream_config cfg)) as Ha.
  eapply within_weaken.
  - unfold createStream, createStream_body. budget.
  - simpl. lia.
  - simpl. lia.
  - simpl. lia.
Qed.

Lemma within_top_level : within (top_level cfg platform) 30 10 100000.
Proof.
  pose proof (within_waitForJetStream 30) as Hw.
  pose proof within_createStream as Hc.
  eapply within_weaken.
  - unfold top_level, main, await_connect, await_jetstreamManager. budget.
  - simpl. lia.
  - simpl. lia.
  - simpl. lia.
Qed.

End Budgets.

Section LaunchLoop.

Variable cfg : Config.

Lemma step_launch_length s inp s' out :
  transition cfg s inp s' out ->
  if is_launch inp
  then length (loops s') = S (length (loops s)) /\ slept out = 100%Z
  else length (loops s') = length (loops s).
Proof.
  intros Htr.
  destruct Htr; simpl; rewrite ?length_app, ?length_insert; simpl; try done.
  split; [lia|done].
Qed.

Lemma launch_sleeps inps : forall s,
  length (loops s) <= NUM_CONSUMERS cfg ->
  (slept (output_where cfg is_launch inps s)
   <= 100 * (Z.of_nat (NUM_CONSUMERS cfg) - Z.of_nat (length (loops s))))%Z.
Proof.
  induction inps as [|inp inps IH]; intros s Hlen; simpl; [lia|].
  destruct (step cfg inp s) as [[s1 out1]|] eqn:Hstep; [|simpl; lia].
  pose proof (step_transition _ _ _ _ _ Hstep) as Htr.
  pose proof (step_launch_length _ _ _ _ Htr) as Hl.
  rewrite slept_app.
  destruct (is_launch inp) eqn:Hlaunch.
  - destruct Hl as [Hl ->].
    assert (length (loops s) < NUM_CONSUMERS cfg) as Hlt.
    { destruct Htr; try done. }
    specialize (IH s1 ltac:(lia)). lia.
  - specialize (IH s1 ltac:(lia)). simpl. lia.
Qed.

End LaunchLoop.

(** X5: whatever the platform answers, [main] with its top-level catch makes
    at most 30 readiness probes and at most 10 [streams.add] calls; the sleeps
    it goes through before it starts the loops (lines 200-242) add up to at
    most 100000 ms, and, whatever the schedule, the sleeps of its launch loop
    (lines 243-246, 100 ms after each loop it starts) add up to at most
    100 * NUM_CONSUMERS ms. *)
Theorem X5_startup_bounded (cfg : Config) (platform : Platform) (inps : list input) :
  lists_made (top_level cfg platform world0).2 <= 30
  /\ adds_made (top_level cfg platform world0).2 <= 10
  /\ (slept (effects (top_level cfg platform world0).2) <= 100000)%Z
  /\ (slept (output_where cfg is_launch inps init)
      <= 100 * Z.of_nat (NUM_CONSUMERS cfg))%Z.
Proof.
  destruct (within_top_level cfg platform world0) as (Hp & Ha & Hs).
  split; [exact Hp|]. split; [exact Ha|]. split; [exact Hs|].
  pose proof (launch_sleeps cfg inps init) as Hl. simpl in Hl.
  specialize (Hl ltac:(lia)). lia.
Qed.

(** X6: in publisher mode, once [connect] has resolved, [main] installs the
    timers of the publisher and does nothing else: no [jetstreamManager], no
    readiness probe, no [streams.add], whatever the platform would answer. *)
Theorem X6_publisher_mode (cfg : Config) (platform : Platform) :
  MODE cfg = "publisher" ->
  connect_reply platform = None ->
  top_level cfg platform world0 =
  (Returned Publishing,
   mkWorld 0 0 (connected_trace cfg ++ [Console LinePublisherMode; InstallPublisherTimers])).
Proof.
  intros Hmode Hconn.
  unfold top_level, try_catch, main, console, sleep, await_connect.
  rewrite !bind_emit, bind_assoc, bind_emit, Hconn, bind_settle_None, bind_emit.
  rewrite bool_decide_eq_true_2 by done.
  by rewrite !bind_emit.
Qed.

Lemma X6_witness :
  top_level publisher_config fresh_platform world0 =
  (Returned Publishing,
   mkWorld 0 0 (connected_trace publisher_config
                ++ [Console LinePublisherMode; InstallPublisherTimers])).
Proof.
  apply (X6_publisher_mode publisher_config fresh_platform); reflexivity.
Defined.

(** X7: when [connect] raises, the error is printed as fatal and the process
    exits with code 1 right after the connection attempt; when, in consumer
    mode, [jetstreamManager] raises, the same happens right after that call;
    in both cases no readiness probe and no [streams.add] is made. *)
Theorem X7_connection_failure (cfg : Config) (platform : Platform) (e : JsError) :
  (connect_reply platform = Some e ->
   top_level cfg platform world0 =
   (Exited 1,
    mkWorld 0 0 [Console (LineBanner cfg); Sleep 10000; Connect (connect_user cfg);
                 Console (LineFatal e)]))
  /\ (connect_reply platform = None -> MODE cfg <> "publisher" ->
      manager_reply platform = Some e ->
      top_level cfg platform world0 =
      (Exited 1,
       mkWorld 0 0 (connected_trace cfg ++ [JetstreamManager; Console (LineFatal e)]))).
Proof.
  split.
  - intros Hconn.
    unfold top_level, try_catch, main, console, sleep, await_connect.
    rewrite !bind_emit, bind_assoc, bind_emit, Hconn. reflexivity.
  - intros Hconn Hmode Hman.
    unfold top_level, try_catch, main, console, sleep, await_connect,
      await_jetstreamManager.
    rewrite !bind_emit, bind_assoc, bind_emit, Hconn, bind_settle_None, bind_emit.
    rewrite bool_decide_eq_false_2 by done.
    rewrite bind_assoc, bind_emit, Hman. reflexivity.
Qed.

Lemma X7_witness :
  top_level default_config unreachable_platform world0 =
  (Exited 1,
   mkWorld 0 0 [Console (LineBanner default_config); Sleep 10000;
                Connect (connect_user default_config);
                Console (LineFatal timeout_error)])
  /\ top_level default_config no_jetstream_platform world0 =
     (Exited 1,
      mkWorld 0 0 (connected_trace default_config
                   ++ [JetstreamManager; Console (LineFatal timeout_error)])).
Proof.
  split.
  - apply (proj1 (X7_connection_failure default_config unreachable_platform
                    timeout_error)).
    reflexivity.
  - apply (proj2 (X7_connection_failure default_config no_jetstream_platform
                    timeout_error)).
    + reflexivity.
    + discriminate.
    + reflexivity.
Defined.

(** X8: in consumer mode, when none of the 30 readiness probes succeeds, the
    process exits with code 1 after the 30th probe and its sleep, having
    printed that JetStream is not ready; [streams.add] is never called. *)
Theorem X8_never_ready (cfg : Config) (platform : Platform) :
  connect_reply platform = None -> MODE cfg <> "publisher" ->
  manager_reply platform = None ->
  (forall k, k < 30 -> list_reply platform k <> None) ->
  top_level cfg platform world0 =
  (Exited 1,
   mkWorld 30 0
     (connected_trace cfg ++ [JetstreamManager; Console LineWaitingCluster]
      ++ waiting_trace 30 0 30 ++ [Console LineNotReady])).
Proof.
  intros Hconn Hmode Hman Hfail.
  unfold top_level, try_catch, main, console, sleep, await_connect,
    await_jetstreamManager.
  rewrite !bind_emit, bind_assoc, bind_emit, Hconn, bind_settle_None, bind_emit.
  rewrite bool_decide_eq_false_2 by done.
  rewrite bind_assoc, bind_emit, Hman, bind_settle_None, bind_emit.
  match goal with
  | |- context [bind (waitForJetStream _ _) _ ?w] =>
      rewrite (bind_Returned _ _ w false _
                 (wait_loop_exhausted platform 30 30 0 w Hfail))
  end.
  rewrite bind_assoc, bind_emit. unfold connected_trace. simpl.
  reflexivity.
Qed.

Lemma X8_witness :
  top_level default_config dead_platform world0 =
  (Exited 1,
   mkWorld 30 0
     (connected_trace default_config ++ [JetstreamManager; Console LineWaitingCluster]
      ++ waiting_trace 30 0 30 ++ [Console LineNotReady])).
Proof.
  apply (X8_never_ready default_config dead_platform).
  - reflexivity.
  - discriminate.
  - reflexivity.
  - intros k Hk. discriminate.
Defined.

(** X9: in consumer mode, when the readiness probe succeeds at attempt [j]
    and the first [streams.add] succeeds, [main] has connected, obtained the
    manager, polled, provisioned the stream and announced the loops, in this
    order, with exactly [j + 1] probes and one [streams.add]. *)
Theorem X9_startup_order (cfg : Config) (platform : Platform) (j : nat) :
  connect_reply platform = None -> MODE cfg <> "publisher" ->
  manager_reply platform = None ->
  j < 30 ->
  (forall k, k < j -> list_reply platform k <> None) ->
  list_reply platform j = None ->
  add_reply platform 0 = None ->
  top_level cfg platform world0 =
  (Returned Churning,
   mkWorld (S j) 1
     (connected_trace cfg ++ [JetstreamManager; Console LineWaitingCluster]
      ++ waiting_trace 30 0 j
      ++ [StreamsListNext; Console LineReady; StreamsAdd (stream_config cfg);
          Console (LineStreamCreated (STREAM_NAME cfg));
          Console (LineStarting (NUM_CONSUMERS cfg))])).
Proof.
  intros Hconn Hmode Hman Hj Hfail Hok Hadd.
  unfold top_level, try_catch, main, console, sleep, await_connect,
    await_jetstreamManager.
  rewrite !bind_emit, bind_assoc, bind_emit, Hconn, bind_settle_None, bind_emit.
  rewrite bool_decide_eq_false_2 by done.
  rewrite bind_assoc, bind_emit, Hman, bind_settle_None, bind_emit.
  match goal with
  | |- context [bind (waitForJetStream _ _) _ ?w] =>
      rewrite (bind_Returned _ _ w true _
                 (wait_loop_first_success platform 30 j 30 0 w Hj Hfail Hok))
  end.
  rewrite (bind_Returned _ _ _ tt _ eq_refl), bind_emit.
  match goal with
  | |- context [bind (createStream _ _) _ ?w] =>
      rewrite (bind_Returned _ _ w tt _
                 (create_loop_settled cfg platform 0 10 0 w ltac:(lia)
                    ltac:(intros; lia) ltac:(left; exact Hadd)))
  end.
  rewrite bind_emit. simpl. rewrite Hadd. unfold connected_trace. simpl.
  rewrite <- !app_assoc. simpl. reflexivity.
Qed.

Lemma X9_witness :
  top_level default_config slow_platform world0 =
  (Returned Churning,
   mkWorld 3 1
     (connected_trace default_config ++ [JetstreamManager; Console LineWaitingCluster]
      ++ waiting_trace 30 0 2
      ++ [StreamsListNext; Console LineReady;
          StreamsAdd (stream_config default_config);
          Console (LineStreamCreated (STREAM_NAME default_config));
          Console (LineStarting (NUM_CONSUMERS default_config))])).
Proof.
  apply (X9_startup_order default_config slow_platform 2).
  - reflexivity.
  - discriminate.
  - reflexivity.
  - lia.
  - intros [|[|k]] Hk; simpl; [discriminate | discriminate | lia].
  - reflexivity.
  - reflexivity.
Defined.

Lemma tally_app {A} (p : A -> bool) l1 l2 :
  tally p (l1 ++ l2) = tally p l1 + tally p l2.
Proof. unfold tally. by rewrite List.filter_app, length_app. Qed.

Lemma tally_cons {A} (p : A -> bool) x l :
  tally p (x :: l) = (if p x then 1 else 0) + tally p l.
Proof. unfold tally. simpl. by destruct (p x). Qed.

Lemma count_split (p q r : stage -> bool) (l : list stage) :
  (forall j st, l !! j = Some st ->
     (if p st then 1 else 0) = (if q st then 1 else 0) + (if r st then 1 else 0)) ->
  count p l = count q l + count r l.
Proof.
  induction l as [|x l IH]; intros H; simpl; [done|].
  rewrite IH by (intros j st Hj; by apply (H (S j))).
  pose proof (H 0 x eq_refl) as Hx. lia.
Qed.

Section MoreEngineFacts.

Variable cfg : Config.

(** What one step does to the counters and to the calls it issues. *)
Lemma step_ledger s inp s' out :
  transition cfg s inp s' out ->
  totalCreated s <= totalCreated s' /\ totalClosed s <= totalClosed s'
  /\ totalReconnects s <= totalReconnects s' /\ createErrors s <= createErrors s'
  /\ length (heap s') = length (heap s) + tally is_subscribe out
  /\ totalCreated s' + createErrors s' + count creating (loops s')
     = totalCreated s + createErrors s + count creating (loops s)
       + tally is_subscribe out
  /\ totalCreated s' + createErrors s' + totalReconnects s + count past_create (loops s)
     = totalCreated s + createErrors s + totalReconnects s' + count past_create (loops s')
  /\ tally is_destroy out + count destroying (loops s) + totalClosed s
     = count destroying (loops s') + totalClosed s'
       + (if destroy_raised inp then 1 else 0).
Proof.
  intros Htr.
  destruct Htr;
    try (match goal with
         | |- context [if ?b then [_] else []] => destruct b
         end);
    cbn [heap totalCreated totalClosed totalReconnects createErrors loops
         with_heap with_loops with_totalCreated with_totalClosed
         with_totalReconnects with_createErrors with_activeConsumers
         with_reporting];
    rewrite ?length_app, ?length_insert, ?length_alter, ?count_app;
    try (match goal with
         | Hk : loops s !! ?i = Some ?x |- context [<[?i := ?y]> (loops s)] =>
             pose proof (count_insert creating (loops s) i x y Hk) as Hc1;
             pose proof (count_insert past_create (loops s) i x y Hk) as Hc2;
             pose proof (count_insert destroying (loops s) i x y Hk) as Hc3;
             simpl in Hc1, Hc2, Hc3
         end);
    try (destruct r; simpl);
    unfold tally; simpl; lia.
Qed.

Lemma run_ledger inps : forall s s' out,
  run cfg inps s = Some (s', out) ->
  totalCreated s <= totalCreated s' /\ totalClosed s <= totalClosed s'
  /\ totalReconnects s <= totalReconnects s' /\ createErrors s <= createErrors s'
  /\ length (heap s') = length (heap s) + tally is_subscribe out
  /\ totalCreated s' + createErrors s' + count creating (loops s')
     = totalCreated s + createErrors s + count creating (loops s)
       + tally is_subscribe out
  /\ totalCreated s' + createErrors s' + totalReconnects s + count past_create (loops s)
     = totalCreated s + createErrors s + totalReconnects s' + count past_create (loops s')
  /\ tally is_destroy out + count destroying (loops s) + totalClosed s
     = count destroying (loops s') + totalClosed s' + tally destroy_raised inps.
Proof.
  induction inps as [|inp inps IH]; intros s s' out Hrun; simpl in Hrun.
  - injection Hrun as <- <-. unfold tally. simpl. lia.
  - destruct (step cfg inp s) as [[s1 out1]|] eqn:Hstep; [|done]. simpl in Hrun.
    destruct (run cfg inps s1) as [[s2 out2]|] eqn:Hrest; [|done]. simpl in Hrun.
    injection Hrun as <- <-.
    pose proof (step_ledger _ _ _ _ (step_transition _ _ _ _ _ Hstep)) as H1.
    specialize (IH _ _ _ Hrest).
    rewrite !tally_app, tally_cons. lia.
Qed.

Lemma run_account inps : forall s s' out,
  run cfg inps s = Some (s', out) -> inv cfg s ->
  totalCreated s' + totalClosed s + count (holding (heap s)) (loops s)
  = totalCreated s + totalClosed s' + count (holding (heap s')) (loops s')
    + tally destroy_raised inps.
Proof.
  induction inps as [|inp inps IH]; intros s s' out Hrun Hinv; simpl in Hrun.
  - injection Hrun as <- <-. unfold tally. simpl. lia.
  - destruct (step cfg inp s) as [[s1 out1]|] eqn:Hstep; [|done]. simpl in Hrun.
    destruct (run cfg inps s1) as [[s2 out2]|] eqn:Hrest; [|done]. simpl in Hrun.
    injection Hrun as <- <-.
    pose proof (step_account _ _ _ _ _ (step_transition _ _ _ _ _ Hstep) Hinv) as H1.
    specialize (IH _ _ _ Hrest (inv_step _ _ _ _ _ Hstep Hinv)).
    rewrite tally_cons. lia.
Qed.

Lemma count_le (p q : stage -> bool) (l : list stage) :
  (forall j st, l !! j = Some st -> p st = true -> q st = true) ->
  count p l <= count q l.
Proof.
  induction l as [|x l IH]; intros H; simpl; [done|].
  specialize (IH (fun j st Hj => H (S j) st Hj)).
  pose proof (H 0 x eq_refl) as Hx.
  destruct (p x), (q x); lia.
Qed.

End MoreEngineFacts.

(** X10: no step of the engine decrements a counter: over any run, from any
    state, [totalCreated], [totalClosed], [totalReconnects] and [createErrors]
    only grow. *)
Theorem X10_counters_monotone (cfg : Config) (inps : list input) (s s' : state)
    (out : list effect) :
  run cfg inps s = Some (s', out) ->
  totalCreated s <= totalCreated s' /\ totalClosed s <= totalClosed s'
  /\ totalReconnects s <= totalReconnects s' /\ createErrors s <= createErrors s'.
Proof. intros Hrun. pose proof (run_ledger cfg _ _ _ _ Hrun). tauto. Qed.

Lemma X10_witness :
  totalCreated creating_state
  <= totalCreated (state_after cfg2 (to_creating ++ first_message_of_loop_1))
  /\ totalClosed creating_state
     <= totalClosed (state_after cfg2 (to_creating ++ first_message_of_loop_1))
  /\ totalReconnects creating_state
     <= totalReconnects (state_after cfg2 (to_creating ++ first_message_of_loop_1))
  /\ createErrors creating_state
     <= createErrors (state_after cfg2 (to_creating ++ first_message_of_loop_1)).
Proof.
  apply (X10_counters_monotone cfg2 first_message_of_loop_1 creating_state
           (state_after cfg2 (to_creating ++ first_message_of_loop_1)) []).
  vm_compute. reflexivity.
Defined.

(** X11: in every reachable state, the creates that have settled
    ([totalCreated] plus [createErrors]) are the completed cycles
    ([totalReconnects]) plus the loops that are between the end of their
    create and their [totalReconnects++]; so [totalReconnects] is at most
    [totalCreated + createErrors] and lags behind by at most NUM_CONSUMERS. *)
Theorem X11_cycle_books (cfg : Config) (inps : list input) (s : state)
    (out : list effect) :
  run cfg inps init = Some (s, out) ->
  totalCreated s + createErrors s = totalReconnects s + count past_create (loops s)
  /\ totalReconnects s <= totalCreated s + createErrors s
  /\ totalCreated s + createErrors s <= totalReconnects s + NUM_CONSUMERS cfg.
Proof.
  intros Hrun.
  pose proof (run_ledger cfg _ _ _ _ Hrun) as (_ & _ & _ & _ & _ & _ & H & _).
  simpl in H.
  pose proof (count_le_length past_create (loops s)).
  pose proof (inv_len _ _ (inv_reachable _ _ _ _ Hrun)). lia.
Qed.

Lemma X11_witness :
  totalCreated null_entry_state + createErrors null_entry_state
  = totalReconnects null_entry_state + count past_create (loops null_entry_state)
  /\ totalReconnects null_entry_state
     <= totalCreated null_entry_state + createErrors null_entry_state
  /\ totalCreated null_entry_state + createErrors null_entry_state
     <= totalReconnects null_entry_state + NUM_CONSUMERS cfg2.
Proof.
  apply (X11_cycle_books cfg2 to_null_entry null_entry_state
           (output_of cfg2 to_null_entry)).
  vm_compute. reflexivity.
Defined.

(** X12: in every run from the start, the number of [js.subscribe] calls
    issued is [totalCreated + createErrors] plus the number of loops whose
    call is pending, and it is the number of [ConsumerInfo] objects
    allocated. *)
Theorem X12_subscribe_calls (cfg : Config) (inps : list input) (s : state)
    (out : list effect) :
  run cfg inps init = Some (s, out) ->
  tally is_subscribe out = totalCreated s + createErrors s + count creating (loops s)
  /\ length (heap s) = tally is_subscribe out.
Proof.
  intros Hrun.
  pose proof (run_ledger cfg _ _ _ _ Hrun) as (_ & _ & _ & _ & H1 & H2 & _).
  simpl in H1, H2. lia.
Qed.

Lemma X12_witness :
  tally is_subscribe second_cycle_output
  = totalCreated second_cycle_state + createErrors second_cycle_state
    + count creating (loops second_cycle_state)
  /\ length (heap second_cycle_state) = tally is_subscribe second_cycle_output.
Proof.
  apply (X12_subscribe_calls cfg2 to_second_cycle second_cycle_state
           second_cycle_output).
  vm_compute. reflexivity.
Defined.

(** X14: in every run from the start, [totalCreated] is [totalClosed] plus
    the subscriptions held by the loops plus the number of [destroy] calls
    that raised; so whenever [printStats] can run, the leak it computes is the
    number of [destroy] calls that raised so far minus the number of entries
    of [activeConsumers] that belong to a failed create. *)
Theorem X14_leak_law (cfg : Config) (inps : list input) (s : state)
    (out : list effect) :
  run cfg inps init = Some (s, out) ->
  totalCreated s
  = totalClosed s + count (holding (heap s)) (loops s) + tally destroy_raised inps
  /\ (quiescent s = true ->
      clientSideLeak s
      = (Z.of_nat (tally destroy_raised inps)
         - Z.of_nat (count (null_entry (heap s)) (loops s)))%Z).
Proof.
  intros Hrun.
  pose proof (inv_reachable _ _ _ _ Hrun) as Hinv.
  pose proof (run_account cfg _ _ _ _ Hrun (inv_init cfg)) as Ha. simpl in Ha.
  split; [lia|]. intros Hq. unfold clientSideLeak.
  rewrite (inv_size _ _ Hinv).
  rewrite (count_split registered (holding (heap s)) (null_entry (heap s))); [lia|].
  intros j st Hj.
  pose proof (quiescent_lookup _ _ _ Hq Hj) as Hst.
  unfold null_entry.
  destruct st; simpl in *; try done; by case_bool_decide.
Qed.

Lemma X14_witness :
  totalCreated (state_after cfg2 to_abandoned)
  = totalClosed (state_after cfg2 to_abandoned)
    + count (holding (heap (state_after cfg2 to_abandoned)))
        (loops (state_after cfg2 to_abandoned))
    + tally destroy_raised to_abandoned
  /\ (quiescent (state_after cfg2 to_abandoned) = true ->
      clientSideLeak (state_after cfg2 to_abandoned)
      = (Z.of_nat (tally destroy_raised to_abandoned)
         - Z.of_nat (count (null_entry (heap (state_after cfg2 to_abandoned)))
                       (loops (state_after cfg2 to_abandoned))))%Z).
Proof.
  apply (X14_leak_law cfg2 to_abandoned (state_after cfg2 to_abandoned)
           (output_of cfg2 to_abandoned)).
  vm_compute. reflexivity.
Defined.

Lemma evolves_refl c : evolves c c.
Proof. unfold evolves. auto. Qed.

Lemma evolves_trans c1 c2 c3 : evolves c1 c2 -> evolves c2 c3 -> evolves c1 c3.
Proof.
  unfold evolves. intros (? & ? & ? & ? & Ha) (? & ? & ? & ? & Hb).
  repeat split; try congruence; try lia. auto.
Qed.

Lemma quiescent_insert (l : list stage) : forall i x st,
  forallb awaits_task l = true -> l !! i = Some x ->
  forallb awaits_task (<[i := st]> l) = awaits_task st.
Proof.
  induction l as [|y l IH]; intros [|i] x st; simpl; try done.
  - intros [_ ->]%andb_prop _. apply andb_true_r.
  - intros [-> Hl]%andb_prop Hi. simpl. by eapply IH.
Qed.

Section LoopFacts.

Variable cfg : Config.

Ltac split_at H :=
  first [ apply list_lookup_insert_Some in H as [(<- & <- & _) | (? & H)]
        | apply lookup_snoc_Some in H as [[_ H] | [-> <-]] ].

(** A step moves at most the loop it resumes, and along the cycle. *)
Lemma step_stage s inp s' out i st :
  transition cfg s inp s' out -> loops s !! i = Some st ->
  exists st', loops s' !! i = Some st'
    /\ (st' = st \/ (follows st st' = true /\ wakes i inp = true)).
Proof.
  intros Htr Hi.
  pose proof (lookup_lt_Some _ _ _ Hi) as Hlt.
  destruct Htr; cbn [loops with_loops with_heap with_reporting with_totalCreated
                     with_createErrors with_activeConsumers with_totalReconnects];
    try (exists st; split; [|by left];
         first [ done | by apply lookup_app_l_Some ]);
    try (match goal with
         | Hk : loops s !! ?k = Some ?x |- context [<[?k := ?y]> _] =>
             destruct (decide (k = i)) as [->|Hne];
             [ exists y; split;
               [ first [ by apply list_lookup_insert_eq
                       | destruct r; by apply list_lookup_insert_eq ]
               | right; rewrite Hi in Hk; injection Hk as ->; simpl;
                 by rewrite ?Nat.eqb_refl ]
             | exists st; split;
               [ first [ by rewrite list_lookup_insert_ne
                       | destruct r; by rewrite list_lookup_insert_ne ]
               | by left ] ]
         end).
Qed.

(** A step that does not resume loop [j] leaves its stage, the subscription
    of its object and its entry in [activeConsumers] as they are. *)
Lemma step_others s inp s' out j st :
  step cfg inp s = Some (s', out) -> inv cfg s ->
  wakes j inp = false -> loops s !! j = Some st ->
  loops s' !! j = Some st
  /\ (forall r, ref_of st = Some r -> sub_at (heap s') r = sub_at (heap s) r)
  /\ activeConsumers s' !! consumer_id j = activeConsumers s !! consumer_id j.
Proof.
  intros Hstep Hinv Hw Hj.
  pose proof (step_transition _ _ _ _ _ Hstep) as Htr.
  pose proof (inv_step _ _ _ _ _ Hstep Hinv) as Hinv'.
  destruct (step_stage _ _ _ _ _ _ Htr Hj) as (st' & Hj' & [-> | [_ Hw']]);
    [|congruence].
  split; [done|]. split.
  - intros r Hr.
    destruct (step_sub_frame _ _ _ _ _ Htr Hinv _ _ _ Hj Hr)
      as [H | (sub & -> & _)]; [done|].
    simpl in Hw. by rewrite Nat.eqb_refl in Hw.
  - by rewrite (inv_reg _ _ Hinv' _ _ Hj'), (inv_reg _ _ Hinv _ _ Hj).
Qed.

(** What a step does to the objects allocated so far. *)
Lemma step_objects s inp s' out r c :
  transition cfg s inp s' out -> inv cfg s ->
  heap s !! r = Some c ->
  exists c', heap s' !! r = Some c' /\ evolves c c'.
Proof.
  intros Htr Hinv Hr.
  destruct Htr; cbn [heap with_loops with_heap with_reporting with_totalCreated
                     with_createErrors with_activeConsumers with_totalReconnects];
    try (exists c; split; [done | apply evolves_refl]).
  - exists c. split; [by apply lookup_app_l_Some | apply evolves_refl].
  - destruct (decide (info = r)) as [->|Hne].
    + exists (set_subscription sub c). split.
      * by rewrite list_lookup_alter_eq, Hr.
      * pose proof (inv_sub _ _ Hinv _ _ H) as Hs. simpl in Hs.
        unfold sub_at in Hs. rewrite Hr in Hs. simpl in Hs.
        unfold evolves. simpl. repeat split; try done. intros x Hx. congruence.
    + exists c. split; [by rewrite list_lookup_alter_ne | apply evolves_refl].
  - exists c. split; [by destruct r0 | apply evolves_refl].
  - exists c. split; [by apply lookup_app_l_Some | apply evolves_refl].
  - destruct (decide (info = r)) as [->|Hne].
    + exists (incr_messageCount c0). split.
      * apply list_lookup_insert_eq. by eapply lookup_lt_Some.
      * assert (c0 = c) as -> by congruence.
        unfold evolves. simpl. repeat split; try done. lia.
    + exists c. split; [by rewrite list_lookup_insert_ne | apply evolves_refl].
Qed.

Lemma run_objects inps : forall s s' out r c,
  run cfg inps s = Some (s', out) -> inv cfg s ->
  heap s !! r = Some c ->
  exists c', heap s' !! r = Some c' /\ evolves c c'.
Proof.
  induction inps as [|inp inps IH]; intros s s' out r c Hrun Hinv Hr;
    simpl in Hrun.
  - injection Hrun as <- <-. exists c. split; [done | apply evolves_refl].
  - destruct (step cfg inp s) as [[s1 out1]|] eqn:Hstep; [|done]. simpl in Hrun.
    destruct (run cfg inps s1) as [[s2 out2]|] eqn:Hrest; [|done]. simpl in Hrun.
    injection Hrun as <- <-.
    destruct (step_objects _ _ _ _ _ _ (step_transition _ _ _ _ _ Hstep) Hinv Hr)
      as (c1 & Hc1 & He1).
    destruct (IH _ _ _ _ _ Hrest (inv_step _ _ _ _ _ Hstep Hinv) Hc1)
      as (c2 & Hc2 & He2).
    exists c2. split; [done | by eapply evolves_trans].
Qed.

Lemma run_others inps : forall s s' out j st,
  run cfg inps s = Some (s', out) -> inv cfg s ->
  forallb (fun inp => negb (wakes j inp)) inps = true ->
  loops s !! j = Some st ->
  loops s' !! j = Some st
  /\ (forall r, ref_of st = Some r -> sub_at (heap s') r = sub_at (heap s) r)
  /\ activeConsumers s' !! consumer_id j = activeConsumers s !! consumer_id j.
Proof.
  induction inps as [|inp inps IH]; intros s s' out j st Hrun Hinv Hall Hj;
    simpl in Hrun.
  - by injection Hrun as <- <-.
  - destruct (step cfg inp s) as [[s1 out1]|] eqn:Hstep; [|done]. simpl in Hrun.
    destruct (run cfg inps s1) as [[s2 out2]|] eqn:Hrest; [|done]. simpl in Hrun.
    injection Hrun as <- <-.
    simpl in Hall. apply andb_prop in Hall as [Hw Hall].
    apply negb_true_iff in Hw.
    destruct (step_others _ _ _ _ _ _ Hstep Hinv Hw Hj) as (H1 & H2 & H3).
    destruct (IH _ _ _ _ _ Hrest (inv_step _ _ _ _ _ Hstep Hinv) Hall H1)
      as (H4 & H5 & H6).
    split; [done|]. split.
    + intros r Hr. by rewrite H5, H2.
    + by rewrite H6, H3.
Qed.

Lemma step_well_named s inp s' out :
  transition cfg s inp s' out -> inv cfg s -> well_named s -> well_named s'.
Proof.
  intros Htr Hinv Hwn j st r Hj Hr.
  assert (forall x, loops s !! j = Some x -> ref_of x = Some r ->
            exists c, heap s' !! r = Some c
                      /\ id c = consumer_id j /\ subject c = consumer_subject j)
    as Hold.
  { intros x Hx Hrx. destruct (Hwn _ _ _ Hx Hrx) as (c & Hc & Hid & Hsu).
    destruct (step_objects _ _ _ _ _ _ Htr Hinv Hc) as (c' & Hc' & He).
    exists c'. unfold evolves in He. split; [done|]. split; [|].
    - destruct He as (-> & _). done.
    - destruct He as (_ & -> & _). done. }
  destruct Htr; simpl in Hj; try split_at Hj;
    try (by eapply Hold);
    try (match goal with
         | Hk : loops s !! _ = Some _ |- _ => by eapply (Hold _ Hk)
         end).
  - simpl in Hr. injection Hr as <-. eexists. split.
    + simpl. apply list_lookup_middle. done.
    + done.
  - simpl in Hr. injection Hr as <-. eexists. split.
    + simpl. apply list_lookup_middle. done.
    + done.
Qed.

Lemma run_well_named inps : forall s s' out,
  run cfg inps s = Some (s', out) -> inv cfg s -> well_named s -> well_named s'.
Proof.
  induction inps as [|inp inps IH]; intros s s' out Hrun Hinv Hwn; simpl in Hrun.
  - by injection Hrun as <- <-.
  - destruct (step cfg inp s) as [[s1 out1]|] eqn:Hstep; [|done]. simpl in Hrun.
    destruct (run cfg inps s1) as [[s2 out2]|] eqn:Hrest; [|done]. simpl in Hrun.
    injection Hrun as <- <-.
    eapply IH; [exact Hrest | by eapply inv_step |].
    eapply step_well_named; [by apply step_transition | done | done].
Qed.

Lemma step_silent s inp s' out :
  transition cfg s inp s' out ->
  silent_without_subscription s -> silent_without_subscription s'.
Proof.
  intros Htr Hs r c Hr Hnone.
  destruct Htr; simpl in Hr; try (by eapply Hs).
  - apply lookup_snoc_Some in Hr as [[_ Hr] | [_ <-]]; [by eapply Hs | done].
  - destruct (decide (info = r)) as [->|Hne].
    + rewrite list_lookup_alter_eq in Hr.
      destruct (heap s !! r) as [c0|]; simpl in Hr; [|done].
      injection Hr as <-. done.
    + rewrite list_lookup_alter_ne in Hr by done. by eapply Hs.
  - destruct r0; by eapply Hs.
  - apply lookup_snoc_Some in Hr as [[_ Hr] | [_ <-]]; [by eapply Hs | done].
  - destruct (decide (info = r)) as [->|Hne].
    + rewrite list_lookup_insert_eq in Hr by (by eapply lookup_lt_Some).
      injection Hr as <-. simpl in Hnone. congruence.
    + rewrite list_lookup_insert_ne in Hr by done. by eapply Hs.
Qed.

Lemma run_silent inps : forall s s' out,
  run cfg inps s = Some (s', out) ->
  silent_without_subscription s -> silent_without_subscription s'.
Proof.
  induction inps as [|inp inps IH]; intros s s' out Hrun Hs; simpl in Hrun.
  - by injection Hrun as <- <-.
  - destruct (step cfg inp s) as [[s1 out1]|] eqn:Hstep; [|done]. simpl in Hrun.
    destruct (run cfg inps s1) as [[s2 out2]|] eqn:Hrest; [|done]. simpl in Hrun.
    injection Hrun as <- <-.
    eapply IH; [exact Hrest|].
    eapply step_silent; [by apply step_transition | done].
Qed.

End LoopFacts.

Lemma alter_new (f : ConsumerInfo -> ConsumerInfo) (h : list ConsumerInfo) (c : ConsumerInfo) :
  alter f (length h) (h ++ [c]) = h ++ [f c].
Proof. rewrite alter_app_r_alt by done. by rewrite Nat.sub_diag. Qed.

(** X20: from a reachable state with no continuation queued and loop [i] in
    COOLDOWN, a cycle in which the platform grants the subscription issues
    exactly one [js.subscribe] and one [destroy], in this order with the
    lifetime sleep between them and the reconnect sleep after them, and leaves
    the state as it was except for one more [ConsumerInfo] object and the
    counters: [totalCreated] and [totalReconnects] one higher, [totalClosed]
    one higher if [destroy] resolved; [activeConsumers] and the stages of all
    loops are as before. *)
Theorem X20_full_cycle (cfg : Config) (inps : list input) (s : state)
    (out : list effect) (i : nat) (now later : Z) (sub : nat) (r : option JsError) :
  run cfg inps init = Some (s, out) ->
  quiescent s = true ->
  loops s !! i = Some Cooldown ->
  run cfg (cycle_of i now sub later r) s
  = Some (mkState
            (heap s ++ [mkInfo (consumer_id i) (consumer_subject i) now (Some sub) 0])
            (activeConsumers s)
            (S (totalCreated s))
            (match r with None => S (totalClosed s) | Some _ => totalClosed s end)
            (S (totalReconnects s))
            (createErrors s)
            (loops s)
            (reporting s),
          [Subscribe (consumer_subject i); Sleep (CONSUMER_LIFETIME_MS cfg);
           Destroy sub; Sleep (RECONNECT_DELAY_MS cfg)]).
Proof.
  intros Hrun Hq Hi.
  pose proof (inv_reachable _ _ _ _ Hrun) as Hinv.
  pose proof (lookup_lt_Some _ _ _ Hi) as Hlt.
  pose proof (inv_reg _ _ Hinv _ _ Hi) as Hreg. simpl in Hreg.
  set (c0 := mkInfo (consumer_id i) (consumer_subject i) now None 0).
  set (r0 := length (heap s)).
  set (s1 := with_loops (<[i := AwaitSubscribe r0]> (loops s))
               (with_heap (heap s ++ [c0]) s)).
  set (s2 := with_loops (<[i := AfterCreate r0]> (loops s1))
               (with_totalCreated (S (totalCreated s1))
                  (with_heap (alter (set_subscription sub) r0 (heap s1)) s1))).
  set (s3 := with_loops (<[i := Lifetime r0]> (loops s2))
               (with_activeConsumers (<[consumer_id i := r0]> (activeConsumers s2)) s2)).
  set (s4 := with_loops (<[i := AwaitDestroy r0]> (loops s3)) s3).
  set (s5 := with_loops (<[i := AfterClose r0]> (loops s4)) (closeConsumer_resume r s4)).
  set (s6 := with_loops (<[i := Cooldown]> (loops s5))
               (with_totalReconnects (S (totalReconnects s5))
                  (with_activeConsumers (delete (consumer_id i) (activeConsumers s5)) s5))).
  assert (step cfg (Wake i (TimerFired now)) s
          = Some (s1, [Subscribe (consumer_subject i)])) as H1.
  { unfold step. simpl is_task. rewrite Hq. simpl andb. rewrite Hi. reflexivity. }
  assert (loops s1 !! i = Some (AwaitSubscribe r0)) as L1
    by (by apply list_lookup_insert_eq).
  assert (loops s2 !! i = Some (AfterCreate r0)) as L2
    by (apply list_lookup_insert_eq; by apply (lookup_lt_Some _ _ _ L1)).
  assert (loops s3 !! i = Some (Lifetime r0)) as L3
    by (apply list_lookup_insert_eq; by apply (lookup_lt_Some _ _ _ L2)).
  assert (loops s4 !! i = Some (AwaitDestroy r0)) as L4
    by (apply list_lookup_insert_eq; by apply (lookup_lt_Some _ _ _ L3)).
  assert (loops s5 !! i = Some (AfterClose r0)) as L5
    by (apply list_lookup_insert_eq; by apply (lookup_lt_Some _ _ _ L4)).
  assert (step cfg (Wake i (SubscribeSettled (inl sub))) s1 = Some (s2, [])) as H2.
  { unfold step. simpl is_task. simpl andb. rewrite L1. reflexivity. }
  assert (step cfg (Wake i Continuation) s2
          = Some (s3, [Sleep (CONSUMER_LIFETIME_MS cfg)])) as H3.
  { unfold step. simpl is_task. simpl andb. rewrite L2. reflexivity. }
  assert (quiescent s3 = true) as Hq3.
  { unfold quiescent, s3, s2, s1. simpl loops. rewrite !list_insert_insert_eq.
    by rewrite (quiescent_insert _ _ _ _ Hq Hi). }
  assert (closeConsumer_call r0 s3 = Some sub) as Hsub.
  { unfold closeConsumer_call, subscription_of, s3, s2, s1. simpl heap. unfold r0.
    rewrite alter_new. by rewrite sub_at_new. }
  assert (step cfg (Wake i (TimerFired later)) s3 = Some (s4, [Destroy sub])) as H4.
  { unfold step. simpl is_task. rewrite Hq3. simpl andb. rewrite L3.
    unfold mbind, option_bind, runConsumerLoop_resume. rewrite Hsub. reflexivity. }
  assert (step cfg (Wake i (DestroySettled r)) s4 = Some (s5, [])) as H5.
  { unfold step. simpl is_task. simpl andb. rewrite L4.
    unfold s5. by destruct r. }
  assert (step cfg (Wake i Continuation) s5
          = Some (s6, [Sleep (RECONNECT_DELAY_MS cfg)])) as H6.
  { unfold step. simpl is_task. simpl andb. rewrite L5. reflexivity. }
  unfold cycle_of.
  rewrite (run_step _ _ _ _ _ _ H1), (run_step _ _ _ _ _ _ H2),
    (run_step _ _ _ _ _ _ H3), (run_step _ _ _ _ _ _ H4),
    (run_step _ _ _ _ _ _ H5), (run_step _ _ _ _ _ _ H6).
  simpl run. simpl app. f_equal. f_equal.
  unfold s6, s5, s4, s3, s2, s1. destruct r; simpl.
  - rewrite !list_insert_insert_eq, (list_insert_id _ _ _ Hi).
    rewrite (delete_insert_id _ _ _ Hreg).
    unfold r0, c0. by rewrite alter_new.
  - rewrite !list_insert_insert_eq, (list_insert_id _ _ _ Hi).
    rewrite (delete_insert_id _ _ _ Hreg).
    unfold r0, c0. by rewrite alter_new.
Qed.

Lemma X20_witness :
  run cfg2 (cycle_of 0 5200 8 10200 None) (state_after cfg2 to_cooldown)
  = Some (mkState
            (heap (state_after cfg2 to_cooldown)
             ++ [mkInfo (consumer_id 0) (consumer_subject 0) 5200 (Some 8) 0])
            (activeConsumers (state_after cfg2 to_cooldown))
            (S (totalCreated (state_after cfg2 to_cooldown)))
            (S (totalClosed (state_after cfg2 to_cooldown)))
            (S (totalReconnects (state_after cfg2 to_cooldown)))
            (createErrors (state_after cfg2 to_cooldown))
            (loops (state_after cfg2 to_cooldown))
            (reporting (state_after cfg2 to_cooldown)),
          [Subscribe (consumer_subject 0); Sleep (CONSUMER_LIFETIME_MS cfg2);
           Destroy 8; Sleep (RECONNECT_DELAY_MS cfg2)]).
Proof.
  apply (X20_full_cycle cfg2 to_cooldown (state_after cfg2 to_cooldown)
           (output_of cfg2 to_cooldown) 0 5200 10200 8 None).
  - vm_compute. reflexivity.
  - vm_compute. reflexivity.
  - vm_compute. reflexivity.
Defined.

Section Snapshots.

Variable cfg : Config.

Lemma step_timers_late s inp s' out :
  transition cfg s inp s' out -> timers_late cfg s -> timers_late cfg s'.
Proof.
  unfold timers_late. intros Htr Hs.
  destruct Htr; simpl; rewrite ?length_insert; try done.
  - intros Hr. specialize (Hs Hr). lia.
  - by destruct r.
Qed.

Lemma step_reporting s inp s' out :
  transition cfg s inp s' out -> reporting s = true -> reporting s' = true.
Proof. intros Htr Hr. destruct Htr; simpl; try done. by destruct r. Qed.

Lemma run_reporting inps : forall s s' out,
  run cfg inps s = Some (s', out) -> reporting s = true -> reporting s' = true.
Proof.
  induction inps as [|inp inps IH]; intros s s' out Hrun Hr; simpl in Hrun.
  - by injection Hrun as <- <-.
  - destruct (step cfg inp s) as [[s1 out1]|] eqn:Hstep; [|done]. simpl in Hrun.
    destruct (run cfg inps s1) as [[s2 out2]|] eqn:Hrest; [|done]. simpl in Hrun.
    injection Hrun as <- <-.
    eapply IH; [exact Hrest|].
    eapply step_reporting; [by apply step_transition | done].
Qed.

Lemma run_snapshots inps : forall s s' out,
  run cfg inps s = Some (s', out) -> inv cfg s -> timers_late cfg s ->
  timers_late cfg s'
  /\ forall st, st ∈ stats_of out ->
       consistent_snapshot cfg st /\ reporting s' = true.
Proof.
  induction inps as [|inp inps IH]; intros s s' out Hrun Hinv Hlate;
    simpl in Hrun.
  - injection Hrun as <- <-. split; [done|]. intros st Hst.
    by apply elem_of_nil in Hst.
  - destruct (step cfg inp s) as [[s1 out1]|] eqn:Hstep; [|done]. simpl in Hrun.
    destruct (run cfg inps s1) as [[s2 out2]|] eqn:Hrest; [|done]. simpl in Hrun.
    injection Hrun as <- <-.
    pose proof (step_transition _ _ _ _ _ Hstep) as Htr.
    pose proof (step_timers_late _ _ _ _ Htr Hlate) as Hlate1.
    destruct (IH _ _ _ Hrest (inv_step _ _ _ _ _ Hstep Hinv) Hlate1)
      as [Hlate2 Hstats].
    split; [done|]. intros st Hst.
    unfold stats_of in Hst. rewrite omap_app in Hst.
    apply elem_of_app in Hst as [Hst | Hst]; [|by apply Hstats].
    assert (s1 = s /\ reporting s = true
            /\ st = mkStats (size (activeConsumers s)) (totalCreated s)
                      (totalClosed s) (totalReconnects s) (createErrors s)
                      (clientSideLeak s)) as (-> & Hrep & ->).
    { clear -Htr Hst. destruct Htr;
        try (match type of Hst with
             | context [if ?b then _ else _] => destruct b
             end);
        simpl in Hst; try (by apply elem_of_nil in Hst).
      apply list_elem_of_singleton in Hst as ->. done. }
    split; [|by eapply run_reporting].
    unfold consistent_snapshot. simpl. split; [|split; [|done]].
    + rewrite (inv_size _ _ Hinv).
      pose proof (count_le_length registered (loops s)).
      pose proof (inv_len _ _ Hinv). lia.
    + pose proof (inv_closed _ _ Hinv). lia.
Qed.

End Snapshots.

Lemma publish_loop_spec pick n : forall c,
  (publish_loop pick n c).2 = c + n
  /\ pub_seq <$> (publish_loop pick n c).1 = seq c n
  /\ pub_subject <$> (publish_loop pick n c).1
     = (fun k => publisher_subjects !! pick k) <$> seq c n.
Proof.
  induction n as [|n IH]; intros c.
  - simpl. split; [lia | done].
  - cbn [publish_loop]. specialize (IH (S c)).
    destruct (publish_loop pick n (S c)) as [rest c']. cbn [fst snd] in *.
    destruct IH as (H1 & H2 & H3).
    rewrite !fmap_cons, H2, H3. cbn [pub_seq pub_subject seq].
    rewrite fmap_cons. split; [lia | done].
Qed.

Lemma publish_ticks_spec pick t : forall c,
  (publish_ticks pick t c).2 = c + 50 * t
  /\ pub_seq <$> (publish_ticks pick t c).1 = seq c (50 * t)
  /\ pub_subject <$> (publish_ticks pick t c).1
     = (fun k => publisher_subjects !! pick k) <$> seq c (50 * t).
Proof.
  induction t as [|t IH]; intros c.
  - rewrite Nat.mul_0_r. simpl. split; [lia | done].
  - cbn [publish_ticks]. unfold publish_tick.
    pose proof (publish_loop_spec pick 50 c) as (H1 & H2 & H3).
    destruct (publish_loop pick 50 c) as [batch c1]. cbn [fst snd] in *.
    specialize (IH c1).
    destruct (publish_ticks pick t c1) as [rest c2]. cbn [fst snd] in *.
    destruct IH as (H4 & H5 & H6). subst c1.
    replace (50 * S t) with (50 + 50 * t) by lia.
    rewrite !fmap_app, H2, H3, H5, H6, seq_app, fmap_app.
    split; [lia | done].
Qed.

(** X21: after [ticks] firings of the publisher's interval starting from
    [msgCount = 0], [msgCount] is [50 * ticks] and the sequence numbers
    published are 0, 1, ..., [50 * ticks - 1] in this order, without gap or
    repetition; and if every drawn index is below 4, every message goes to
    one of the four publisher subjects, all of which begin with "events.". *)
Theorem X21_publisher_sequence (pick : nat -> nat) (ticks : nat) :
  (publish_ticks pick ticks 0).2 = 50 * ticks
  /\ pub_seq <$> (publish_ticks pick ticks 0).1 = seq 0 (50 * ticks)
  /\ ((forall k, pick k < 4) ->
      forall p, p ∈ (publish_ticks pick ticks 0).1 ->
                exists subject, pub_subject p = Some subject
                                /\ subject ∈ publisher_subjects
                                /\ String.prefix "events." subject = true).
Proof.
  pose proof (publish_ticks_spec pick ticks 0) as (H1 & H2 & H3).
  split; [lia|]. split; [done|].
  intros Hpick p Hp.
  assert (pub_subject p ∈ pub_subject <$> (publish_ticks pick ticks 0).1) as Hs
    by (by apply list_elem_of_fmap_2).
  rewrite H3 in Hs. apply list_elem_of_fmap in Hs as (k & -> & _).
  specialize (Hpick k).
  destruct (pick k) as [|[|[|[|n]]]]; try lia; eexists;
    (split; [reflexivity|]); (split; [set_solver | reflexivity]).
Qed.

Lemma X21_witness :
  (publish_ticks (fun k => k `mod` 4) 2 0).2 = 100
  /\ pub_seq <$> (publish_ticks (fun k => k `mod` 4) 2 0).1 = seq 0 100
  /\ forall p, p ∈ (publish_ticks (fun k => k `mod` 4) 2 0).1 ->
       exists subject, pub_subject p = Some subject
                       /\ subject ∈ publisher_subjects
                       /\ String.prefix "events." subject = true.
Proof.
  destruct (X21_publisher_sequence (fun k => k `mod` 4) 2) as (H1 & H2 & H3).
  split; [exact H1|]. split; [exact H2|].
  apply H3. intros k. apply Nat.mod_upper_bound. lia.
Defined.



(** X16: whatever happens to the other loops (refused creates and raising
    [destroy]s included), to [main] and to the reporter, a loop that is not
    resumed stays at its suspension point, the subscription of its object
    stays as it is, and so does its entry in [activeConsumers]. *)
Theorem X16_loops_independent (cfg : Config) (before inps : list input)
    (s s' : state) (out0 out : list effect) (j : nat) (st : stage) :
  run cfg before init = Some (s, out0) ->
  run cfg inps s = Some (s', out) ->
  forallb (fun inp => negb (wakes j inp)) inps = true ->
  loops s !! j = Some st ->
  loops s' !! j = Some st
  /\ (forall r, ref_of st = Some r -> sub_at (heap s') r = sub_at (heap s) r)
  /\ activeConsumers s' !! consumer_id j = activeConsumers s !! consumer_id j.
Proof.
  intros Hbefore Hrun Hall Hj.
  eapply run_others; [exact Hrun | by eapply inv_reachable | done | done].
Qed.

Lemma X16_witness :
  loops (state_after cfg2 (to_creating ++ refusal_of_loop_0)) !! 1
  = Some (AwaitSubscribe 1)
  /\ (forall r, ref_of (AwaitSubscribe 1) = Some r ->
        sub_at (heap (state_after cfg2 (to_creating ++ refusal_of_loop_0))) r
        = sub_at (heap creating_state) r)
  /\ activeConsumers (state_after cfg2 (to_creating ++ refusal_of_loop_0))
       !! consumer_id 1
     = activeConsumers creating_state !! consumer_id 1.
Proof.
  apply (X16_loops_independent cfg2 to_creating refusal_of_loop_0 creating_state
           (state_after cfg2 (to_creating ++ refusal_of_loop_0))
           (output_of cfg2 to_creating)
           [Console (LineCreateError 1 (Some "timeout")); Sleep 5000]
           1 (AwaitSubscribe 1)).
  - vm_compute. reflexivity.
  - vm_compute. reflexivity.
  - vm_compute. reflexivity.
  - vm_compute. reflexivity.
Defined.

(** X17: a [ConsumerInfo] object, once allocated, stays in place: over any
    run from a reachable state its [id], [subject] and [createdAt] do not
    change, its [messageCount] does not decrease, and its [subscription],
    once set, is never replaced or reset to null. *)
Theorem X17_objects_evolve (cfg : Config) (before inps : list input)
    (s s' : state) (out0 out : list effect) (r : nat) (c : ConsumerInfo) :
  run cfg before init = Some (s, out0) ->
  run cfg inps s = Some (s', out) ->
  heap s !! r = Some c ->
  exists c', heap s' !! r = Some c' /\ evolves c c'.
Proof.
  intros Hbefore Hrun Hr.
  eapply run_objects; [exact Hrun | by eapply inv_reachable | done].
Qed.

Lemma X17_witness :
  exists c',
    heap (state_after cfg2 (to_creating ++ first_message_of_loop_1)) !! 1 = Some c'
    /\ evolves (mkInfo "consumer_1" "events.sensor.station2.>" 100 None 0) c'.
Proof.
  apply (X17_objects_evolve cfg2 to_creating first_message_of_loop_1 creating_state
           (state_after cfg2 (to_creating ++ first_message_of_loop_1))
           (output_of cfg2 to_creating) [] 1).
  - vm_compute. reflexivity.
  - vm_compute. reflexivity.
  - vm_compute. reflexivity.
Defined.

(** X18: in every reachable state, every entry of [activeConsumers] maps its
    key to an object whose [id] is that key, and the [info] of every loop is
    an object with the loop's id and subject. *)
Theorem X18_entries_named (cfg : Config) (inps : list input) (s : state)
    (out : list effect) :
  run cfg inps init = Some (s, out) ->
  (forall k r,
     activeConsumers s !! k = Some r ->
     exists c, heap s !! r = Some c /\ id c = k)
  /\ well_named s.
Proof.
  intros Hrun.
  pose proof (inv_reachable _ _ _ _ Hrun) as Hinv.
  assert (well_named s) as Hwn.
  { eapply run_well_named; [exact Hrun | apply inv_init |].
    intros i st r Hi. simpl in Hi. by rewrite lookup_nil in Hi. }
  split; [|done]. intros k r Hk.
  destruct (inv_keys _ _ Hinv _ _ Hk) as (i & Hi & ->).
  destruct (lookup_lt_is_Some_2 _ _ Hi) as [st Hst].
  pose proof (inv_reg _ _ Hinv _ _ Hst) as Hreg. rewrite Hk in Hreg.
  destruct (registered st); [|done].
  destruct (Hwn i st r Hst (eq_sym Hreg)) as (c & Hc & Hid & _).
  by exists c.
Qed.

Lemma X18_witness :
  (forall k r,
     activeConsumers null_entry_state !! k = Some r ->
     exists c, heap null_entry_state !! r = Some c /\ id c = k)
  /\ well_named null_entry_state.
Proof.
  apply (X18_entries_named cfg2 to_null_entry null_entry_state
           (output_of cfg2 to_null_entry)).
  vm_compute. reflexivity.
Defined.

(** X19: in every reachable state, an object whose [subscription] is null has
    [messageCount] 0: the drain task counts messages only on objects whose
    create succeeded. *)
Theorem X19_no_message_without_subscription (cfg : Config) (inps : list input)
    (s : state) (out : list effect) :
  run cfg inps init = Some (s, out) ->
  silent_without_subscription s.
Proof.
  intros Hrun. eapply run_silent; [exact Hrun|].
  intros r c Hr. simpl in Hr. by rewrite lookup_nil in Hr.
Qed.

Lemma X19_witness : silent_without_subscription null_entry_state.
Proof.
  apply (X19_no_message_without_subscription cfg2 to_null_entry null_entry_state
           (output_of cfg2 to_null_entry)).
  vm_compute. reflexivity.
Defined.

(** X22: [printStats] never runs before [main] has started all NUM_CONSUMERS
    loops, and every snapshot it prints shows at most NUM_CONSUMERS active
    consumers, a closed count that is at most the created count, and a leak
    equal to created minus closed minus active. *)
Theorem X22_snapshots_consistent (cfg : Config) (inps : list input) (s : state)
    (out : list effect) :
  run cfg inps init = Some (s, out) ->
  (reporting s = true -> length (loops s) = NUM_CONSUMERS cfg)
  /\ forall st, st ∈ stats_of out ->
       consistent_snapshot cfg st /\ length (loops s) = NUM_CONSUMERS cfg.
Proof.
  intros Hrun.
  destruct (run_snapshots cfg _ _ _ _ Hrun (inv_init cfg)) as [Hlate Hstats].
  { intros Hr. done. }
  split; [exact Hlate|]. intros st Hst.
  destruct (Hstats st Hst) as [Hc Hr]. split; [done | by apply Hlate].
Qed.

Lemma X22_witness :
  (reporting second_cycle_state = true ->
   length (loops second_cycle_state) = NUM_CONSUMERS cfg2)
  /\ forall st, st ∈ stats_of second_cycle_output ->
       consistent_snapshot cfg2 st
       /\ length (loops second_cycle_state) = NUM_CONSUMERS cfg2.
Proof.
  apply (X22_snapshots_consistent cfg2 to_second_cycle second_cycle_state
           second_cycle_output).
  vm_compute. reflexivity.
Defined.

(** * The cycle after a refused create *)

Section RefusedCreate.

Variable cfg : Config.

(** A loop that holds an object allocated before a step held it before the
    step: objects are not handed from loop to loop, and a new cycle takes a
    fresh one. *)
Lemma step_holder s inp s' out j st' r :
  transition cfg s inp s' out -> r < length (heap s) ->
  loops s' !! j = Some st' -> ref_of st' = Some r ->
  exists st, loops s !! j = Some st /\ ref_of st = Some r
             /\ (st' = st \/ follows st st' = true).
Proof.
  intros Htr Hr Hj' Hst'.
  destruct (step_loops _ _ _ _ _ Htr) as [Heq | [[Heq _] | (i & x & x' & Hi & Heq & Href)]].
  - rewrite Heq in Hj'. exists st'. auto.
  - rewrite Heq in Hj'. apply lookup_app_Some in Hj' as [Hj' | [_ Hj']].
    + exists st'. auto.
    + apply list_lookup_singleton_Some in Hj' as [_ <-]. simpl in Hst'.
      injection Hst' as <-. lia.
  - destruct (decide (i = j)) as [->|Hne].
    + destruct (step_stage _ _ _ _ _ _ _ Htr Hi) as (y & Hy & Hor).
      assert (y = st') as -> by congruence.
      rewrite Heq, list_lookup_insert_eq in Hj' by (by eapply lookup_lt_Some).
      injection Hj' as ->.
      exists x. split; [done|].
      destruct Href as [Href | [Href | [Href _]]].
      * split; [congruence|]. destruct Hor as [->|[Hf _]]; auto.
      * congruence.
      * rewrite Hst' in Href. injection Href as ->. lia.
    + rewrite Heq, list_lookup_insert_ne in Hj' by done.
      exists st'. auto.
Qed.

(** The [subscription] of an object that no loop holds does not change. *)
Lemma step_sub_unheld s inp s' out r :
  transition cfg s inp s' out ->
  (forall j st, loops s !! j = Some st -> ref_of st <> Some r) ->
  sub_at (heap s') r = sub_at (heap s) r.
Proof.
  intros Htr Hfree.
  assert (forall c, subscription c = None ->
            sub_at (heap s ++ [c]) r = sub_at (heap s) r) as Happ.
  { intros c Hc. destruct (decide (r < length (heap s))) as [Hlt|Hge].
    - by apply sub_at_app.
    - unfold sub_at. rewrite (lookup_ge_None_2 (heap s)) by lia.
      destruct (decide (r = length (heap s))) as [->|Hne].
      + by rewrite list_lookup_middle.
      + rewrite lookup_ge_None_2; [done|]. rewrite length_app. simpl. lia. }
  destruct Htr; simpl; try reflexivity.
  - by apply Happ.
  - apply sub_at_alter_ne. intros ->.
    by eapply (Hfree i (AwaitSubscribe r)).
  - destruct r0; reflexivity.
  - by apply Happ.
  - by apply sub_at_incr.
Qed.

(** One resumption of a loop whose create was refused. *)
Lemma wake_after_refusal t i info n w t' o :
  n <= 2 ->
  loops t !! i = Some (after_refusal info n) ->
  sub_at (heap t) info = None ->
  step cfg (Wake i w) t = Some (t', o) ->
  loops t' = <[i := after_refusal info (S n)]> (loops t)
  /\ heap t' = heap t
  /\ o = refusal_step_output cfg n
  /\ totalCreated t' = totalCreated t
  /\ createErrors t' = createErrors t
  /\ totalClosed t' = totalClosed t.
Proof.
  intros Hn Hi Hsub Hstep.
  unfold step in Hstep.
  destruct (is_task w && negb (quiescent t)); [done|].
  rewrite Hi in Hstep.
  destruct n as [|[|[|n]]]; [| | |lia]; simpl in Hstep;
    destruct w; simpl in Hstep; try done.
  - by injection Hstep as <- <-.
  - unfold closeConsumer_call, subscription_of in Hstep. rewrite Hsub in Hstep.
    by injection Hstep as <- <-.
  - by injection Hstep as <- <-.
Qed.

Lemma wake_accepted t i info n w :
  n <= 2 ->
  loops t !! i = Some (after_refusal info n) ->
  sub_at (heap t) info = None ->
  is_Some (step cfg (Wake i w) t) <-> accepted_after_refusal t n w.
Proof.
  intros Hn Hi Hsub.
  unfold step.
  destruct n as [|[|[|n]]]; [| | |lia]; simpl in Hi |- *;
    destruct w; simpl; rewrite ?Hi; simpl;
    unfold closeConsumer_call, subscription_of; rewrite ?Hsub;
    try destruct (quiescent t); simpl.
  all: split; intros H.
  all: try (by apply is_Some_None in H).
  all: try discriminate H.
  all: try done.
  all: try (by destruct H as [_ [now' Hnow]]).
  - split; [done|]. by eexists.
  - by destruct H as [Hq _].
Qed.

(** Any schedule that resumes the loop at most [3 - n] times. *)
Lemma run_after_refusal i info later : forall n t0 t o,
  run cfg later t0 = Some (t, o) -> inv cfg t0 ->
  loops t0 !! i = Some (after_refusal info n) ->
  sub_at (heap t0) info = None ->
  info < length (heap t0) ->
  (3 <= n -> forall j st, loops t0 !! j = Some st -> ref_of st <> Some info) ->
  n + tally (wakes i) later <= 3 ->
  loops t !! i = Some (after_refusal info (n + tally (wakes i) later))
  /\ sub_at (heap t) info = None
  /\ output_where cfg (wakes i) later t0
     = concat (refusal_step_output cfg <$> seq n (tally (wakes i) later)).
Proof.
  induction later as [|inp later IH]; intros n t0 t o Hrun Hinv Hi Hsub Hlt Hfree Hn;
    simpl in Hrun.
  - injection Hrun as <- <-. unfold tally. simpl. by rewrite Nat.add_0_r.
  - destruct (step cfg inp t0) as [[t1 o1]|] eqn:Hstep; [|done]. simpl in Hrun.
    destruct (run cfg later t1) as [[t2 o2]|] eqn:Hrest; [|done]. simpl in Hrun.
    injection Hrun as <- <-.
    pose proof (inv_step _ _ _ _ _ Hstep Hinv) as Hinv1.
    pose proof (step_transition _ _ _ _ _ Hstep) as Htr.
    pose proof (step_heap_length _ _ _ _ _ Htr) as Hlen.
    rewrite tally_cons in Hn |- *. simpl output_where. rewrite Hstep.
    revert Hn. destruct (wakes i inp) eqn:Hw; intros Hn.
    + destruct inp as [| |k w| |]; try done. simpl in Hw.
      apply Nat.eqb_eq in Hw as ->.
      assert (n <= 2) as Hn2. { lia. }
      destruct (wake_after_refusal _ _ _ _ _ _ _ Hn2 Hi Hsub Hstep)
        as (Hl1 & Hh1 & -> & _).
      assert (loops t1 !! i = Some (after_refusal info (S n))) as Hi1.
      { rewrite Hl1. apply list_lookup_insert_eq. by eapply lookup_lt_Some. }
      destruct (IH (S n) t1 t2 o2 Hrest Hinv1 Hi1) as (H1 & H2 & H3).
      * by rewrite Hh1.
      * lia.
      * intros Hn3 j st Hj Hr.
        assert (n = 2) as -> by lia.
        destruct (decide (j = i)) as [->|Hne].
        { rewrite Hi1 in Hj. injection Hj as <-. done. }
        rewrite Hl1, list_lookup_insert_ne in Hj by done.
        by pose proof (inv_distinct _ _ Hinv _ _ _ _ _ Hj Hi Hr eq_refl).
      * lia.
      * replace (n + (1 + tally (wakes i) later)) with (S n + tally (wakes i) later)
          by lia.
        split; [done|]. split; [done|].
        rewrite H3. simpl. reflexivity.
    + assert (loops t1 !! i = Some (after_refusal info n)
              /\ sub_at (heap t1) info = None) as [Hi1 Hsub1].
      { destruct (step_others _ _ _ _ _ _ _ Hstep Hinv Hw Hi) as (Hi1 & Hs1 & _).
        split; [done|].
        destruct (decide (n <= 2)) as [Hle|Hgt].
        - rewrite Hs1; [done|]. by destruct n as [|[|[|n]]]; [| | |lia].
        - rewrite (step_sub_unheld _ _ _ _ _ Htr); [done|]. apply Hfree. lia. }
      destruct (IH n t1 t2 o2 Hrest Hinv1 Hi1 Hsub1) as (H1 & H2 & H3).
      * lia.
      * intros Hn3 j st Hj Hr.
        destruct (step_holder _ _ _ _ _ _ _ Htr Hlt Hj Hr) as (st0 & Hj0 & Hr0 & _).
        by eapply Hfree.
      * lia.
      * simpl. done.
Qed.

End RefusedCreate.

(** C4: in every state the interleaved loops can reach, whether or not the
    continuation of another loop is queued, when [js.subscribe] raises for a
    loop, [createErrors] is incremented, the error is logged only if the new
    value of [createErrors] is 1 modulo 10, and [totalCreated] and
    [totalClosed] stay as they are. From there on, whatever the other loops,
    the platform and the timers do in between, the loop's next three
    resumptions take it through the rest of the cycle and nowhere else: its
    queued continuation starts the lifetime sleep, the timer (once no
    continuation is queued) runs a [closeConsumer] that calls no [destroy],
    its queued continuation starts the reconnect-delay sleep, and the loop
    sits in COOLDOWN. Up to there the loop has emitted the two sleeps and
    nothing else (no [js.subscribe], no [destroy]), [info.subscription] is
    null throughout, and none of these resumptions changes [createErrors],
    [totalCreated] or [totalClosed]. *)
Theorem C4_create_failure (cfg : Config) (inps : list input) (s : state)
    (out : list effect) (i info : nat) (e : JsError) :
  run cfg inps init = Some (s, out) ->
  loops s !! i = Some (AwaitSubscribe info) ->
  exists s1,
    step cfg (Wake i (SubscribeSettled (inr e))) s
    = Some (s1, if S (createErrors s) `mod` 10 =? 1
                then [Console (LineCreateError (S (createErrors s)) (message e))]
                else [])
    /\ createErrors s1 = S (createErrors s)
    /\ totalCreated s1 = totalCreated s
    /\ totalClosed s1 = totalClosed s
    /\ forall later t out',
         run cfg later s1 = Some (t, out') ->
         tally (wakes i) later <= 3 ->
         loops t !! i = Some (after_refusal info (tally (wakes i) later))
         /\ subscription_of t info = None
         /\ output_where cfg (wakes i) later s1
            = output_after_refusal cfg (tally (wakes i) later)
         /\ (tally (wakes i) later < 3 ->
             forall w,
               (is_Some (step cfg (Wake i w) t)
                <-> accepted_after_refusal t (tally (wakes i) later) w)
               /\ (forall t' o,
                     step cfg (Wake i w) t = Some (t', o) ->
                     createErrors t' = createErrors t
                     /\ totalCreated t' = totalCreated t
                     /\ totalClosed t' = totalClosed t)).
Proof.
  intros Hrun Hi.
  pose proof (inv_reachable _ _ _ _ Hrun) as Hinv.
  pose proof (inv_sub _ _ Hinv _ _ Hi) as Hsub. simpl in Hsub.
  pose proof (inv_bound _ _ Hinv _ _ _ Hi eq_refl) as Hb.
  set (s1 := with_loops (<[i := AfterCreate info]> (loops s))
               (with_createErrors (S (createErrors s)) s)).
  assert (step cfg (Wake i (SubscribeSettled (inr e))) s
          = Some (s1, if S (createErrors s) `mod` 10 =? 1
                      then [Console (LineCreateError (S (createErrors s)) (message e))]
                      else [])) as H1.
  { unfold step. simpl is_task. simpl andb. rewrite Hi. reflexivity. }
  exists s1. split; [exact H1|]. do 3 (split; [reflexivity|]).
  intros later t out' Hlater Hk.
  pose proof (inv_step _ _ _ _ _ H1 Hinv) as Hinv1.
  assert (loops s1 !! i = Some (after_refusal info 0)) as Hi1.
  { simpl. apply list_lookup_insert_eq. by eapply lookup_lt_Some. }
  destruct (run_after_refusal cfg i info later 0 s1 t out' Hlater Hinv1 Hi1 Hsub Hb
              ltac:(lia) Hk) as (Hst & Hnone & Hout).
  simpl in Hst.
  split; [exact Hst|]. split; [exact Hnone|]. split; [exact Hout|].
  intros Hk3 w. split.
  - apply wake_accepted with info; [lia|done|done].
  - intros t' o Hstep.
    assert (tally (wakes i) later <= 2) as Hk2 by lia.
    by destruct (wake_after_refusal cfg _ _ _ _ _ _ _ Hk2 Hst Hnone Hstep)
      as (_ & _ & _ & ? & ? & ?).
Qed.

Lemma C4_witness :
  quiescent queued_state = false
  /\ exists s1 t out',
       step cfg2 (Wake 0 (SubscribeSettled (inr timeout_error))) queued_state
       = Some (s1, [Console (LineCreateError 1 (message timeout_error))])
       /\ createErrors s1 = 1 /\ totalCreated s1 = 1 /\ totalClosed s1 = 0
       /\ run cfg2 refused_cycle s1 = Some (t, out')
       /\ loops t !! 0 = Some Cooldown
       /\ subscription_of t 0 = None
       /\ output_where cfg2 (wakes 0) refused_cycle s1 = [Sleep 5000; Sleep 100].
Proof.
  split; [vm_compute; reflexivity|].
  assert (run cfg2 to_queued init
          = Some (queued_state,
                  [Subscribe "events.sensor.station1.>"; Sleep 100;
                   Subscribe "events.sensor.station2.>"; Sleep 100])) as Hrun
    by (vm_compute; reflexivity).
  assert (loops queued_state !! 0 = Some (AwaitSubscribe 0)) as Hi
    by (vm_compute; reflexivity).
  destruct (C4_create_failure cfg2 to_queued queued_state _ 0 0 timeout_error Hrun Hi)
    as (s1 & Hstep & Hce & Htc & Hcl & Hlater).
  destruct (run cfg2 refused_cycle s1) as [[t out']|] eqn:Hcycle.
  - destruct (Hlater refused_cycle t out' Hcycle ltac:(vm_compute; lia))
      as (Hst & Hnone & Hout & _).
    exists s1, t, out'.
    split; [exact Hstep|]. split; [exact Hce|]. split; [exact Htc|].
    split; [exact Hcl|]. split; [exact Hcycle|]. split; [exact Hst|].
    split; [exact Hnone|]. exact Hout.
  - exfalso. revert Hcycle.
    assert (step cfg2 (Wake 0 (SubscribeSettled (inr timeout_error))) queued_state
            = Some (with_loops (<[0 := AfterCreate 0]> (loops queued_state))
                      (with_createErrors 1 queued_state),
                    [Console (LineCreateError 1 (message timeout_error))])) as Hs
      by (vm_compute; reflexivity).
    rewrite Hs in Hstep. injection Hstep as <-.
    vm_compute. discriminate.
Defined.

(** * The destroy calls *)

Section DestroyCalls.

Variable cfg : Config.

Lemma step_destroy_call s inp s' out :
  transition cfg s inp s' out ->
  (destroy_call s inp out = [] /\ destroy_handles out = [])
  \/ (exists i info sub,
        loops s !! i = Some (Lifetime info)
        /\ sub_at (heap s) info = Some sub
        /\ destroy_call s inp out = [(info, sub)]
        /\ destroy_handles out = [sub]
        /\ heap s' = heap s
        /\ loops s' = <[i := AwaitDestroy info]> (loops s)).
Proof.
  intros Htr.
  destruct Htr; try (left; split; reflexivity).
  - left. by destruct (S (createErrors s) `mod` 10 =? 1).
  - right. exists i, info, sub. simpl. rewrite H0. simpl. done.
Qed.

Lemma step_destroyed s inp s' out infos :
  transition cfg s inp s' out -> destroyed s infos -> destroyed s' infos.
Proof.
  intros Htr HQ r Hr. destruct (HQ r Hr) as [Hlt Hst].
  pose proof (step_heap_length _ _ _ _ _ Htr) as Hlen.
  split; [lia|]. intros j st' Hj' Href'.
  destruct (step_holder _ _ _ _ _ _ _ _ Htr Hlt Hj' Href') as (st & Hj & Href & Hor).
  destruct (Hst j st Hj Href) as [-> | ->].
  - destruct Hor as [-> | Hf]; [by left|].
    destruct st'; simpl in Hf; try done. simpl in Href'. right. congruence.
  - destruct Hor as [-> | Hf]; [by right|].
    destruct st'; simpl in Hf; done.
Qed.

(** The objects [destroy] is called for in a schedule are new ones, each with
    the handle of its own subscription. *)
Lemma run_destroy_calls inps : forall s s' out infos,
  run cfg inps s = Some (s', out) -> inv cfg s ->
  destroyed s infos -> NoDup infos ->
  NoDup (infos ++ (destroy_calls cfg inps s).*1)
  /\ destroy_handles out = (destroy_calls cfg inps s).*2
  /\ (forall info sub,
        (info, sub) ∈ destroy_calls cfg inps s -> sub_at (heap s') info = Some sub).
Proof.
  induction inps as [|inp inps IH]; intros s s' out infos Hrun Hinv HQ Hnd;
    simpl in Hrun.
  - injection Hrun as <- <-. simpl. rewrite app_nil_r.
    split; [done|]. split; [done|]. intros info sub Hin. by apply elem_of_nil in Hin.
  - destruct (step cfg inp s) as [[s1 out1]|] eqn:Hstep; [|done]. simpl in Hrun.
    destruct (run cfg inps s1) as [[s2 out2]|] eqn:Hrest; [|done]. simpl in Hrun.
    injection Hrun as <- <-.
    pose proof (inv_step _ _ _ _ _ Hstep Hinv) as Hinv1.
    pose proof (step_transition _ _ _ _ _ Hstep) as Htr.
    pose proof (step_destroyed _ _ _ _ _ Htr HQ) as HQ1.
    simpl destroy_calls. rewrite Hstep.
    unfold destroy_handles. rewrite omap_app. fold (destroy_handles out1).
    fold (destroy_handles out2).
    destruct (step_destroy_call _ _ _ _ Htr)
      as [[-> ->] | (i & info & sub & Hi & Hsub & -> & -> & Hheap & Hloops)].
    + simpl. by apply IH.
    + assert (info ∉ infos) as Hnew.
      { intros Hin. destruct (HQ info Hin) as [_ Hst].
        by destruct (Hst i _ Hi eq_refl). }
      assert (loops s1 !! i = Some (AwaitDestroy info)) as Hi1.
      { rewrite Hloops. apply list_lookup_insert_eq. by eapply lookup_lt_Some. }
      destruct (IH s1 s2 out2 (infos ++ [info]) Hrest Hinv1) as (H1 & H2 & H3).
      * intros r [Hr | ->%list_elem_of_singleton]%elem_of_app; [by apply HQ1|].
        split.
        { rewrite Hheap. by eapply (inv_bound _ _ Hinv). }
        intros j st Hj Href.
        assert (j = i) as -> by (by eapply (inv_distinct _ _ Hinv1)).
        left. congruence.
      * apply NoDup_app. split; [done|]. split; [|apply NoDup_singleton].
        intros x Hx ->%list_elem_of_singleton. done.
      * split; [|split].
        { simpl. by rewrite <- app_assoc in H1. }
        { simpl. by rewrite H2. }
        intros info' sub' [Heq | Hin]%elem_of_cons; [|by apply H3].
        injection Heq as -> ->.
        unfold sub_at in Hsub |- *.
        destruct (heap s !! info) as [c|] eqn:Hc; [|done]. simpl in Hsub.
        rewrite <- Hheap in Hc.
        destruct (run_objects _ _ _ _ _ _ _ Hrest Hinv1 Hc) as (c' & -> & Hev).
        simpl. by apply Hev.
Qed.

End DestroyCalls.

(** X13: in every run from the start, the number of [destroy] calls issued
    is [totalClosed] plus the number of [destroy] calls that raised plus the
    number of loops whose call is pending, and it never exceeds
    [totalCreated]. Every [destroy] in the output is the call of a loop's
    [closeConsumer] on the loop's own object, no object is the subject of two
    calls, and the handle of each call is the [subscription] of its object:
    [destroy] is not called for a create that failed, nor twice for one
    [ConsumerInfo]. *)
Theorem X13_destroy_calls (cfg : Config) (inps : list input) (s : state)
    (out : list effect) :
  run cfg inps init = Some (s, out) ->
  tally is_destroy out
  = totalClosed s + tally destroy_raised inps + count destroying (loops s)
  /\ tally is_destroy out <= totalCreated s
  /\ destroy_handles out = (destroy_calls cfg inps init).*2
  /\ NoDup (destroy_calls cfg inps init).*1
  /\ (forall info sub,
        (info, sub) ∈ destroy_calls cfg inps init ->
        subscription_of s info = Some sub).
Proof.
  intros Hrun.
  pose proof (inv_reachable _ _ _ _ Hrun) as Hinv.
  pose proof (run_ledger cfg _ _ _ _ Hrun) as (_ & _ & _ & _ & _ & _ & _ & H).
  pose proof (run_account cfg _ _ _ _ Hrun (inv_init cfg)) as Ha.
  simpl in H, Ha.
  assert (count destroying (loops s) <= count (holding (heap s)) (loops s)) as Hle.
  { apply count_le. intros j st Hj Hd.
    pose proof (inv_sub _ _ Hinv _ _ Hj) as Hs.
    destruct st; simpl in *; try done. by apply bool_decide_eq_true_2. }
  split; [lia|]. split; [lia|].
  destruct (run_destroy_calls cfg inps init s out [] Hrun (inv_init cfg))
    as (Hnd & Hh & Hsub).
  - intros r Hr. by apply elem_of_nil in Hr.
  - apply NoDup_nil_2.
  - done.
Qed.

Lemma X13_witness :
  tally is_destroy (output_of cfg2 to_abandoned)
  = totalClosed (state_after cfg2 to_abandoned) + tally destroy_raised to_abandoned
    + count destroying (loops (state_after cfg2 to_abandoned))
  /\ tally is_destroy (output_of cfg2 to_abandoned)
     <= totalCreated (state_after cfg2 to_abandoned)
  /\ destroy_handles (output_of cfg2 to_abandoned)
     = (destroy_calls cfg2 to_abandoned init).*2
  /\ NoDup (destroy_calls cfg2 to_abandoned init).*1
  /\ (forall info sub,
        (info, sub) ∈ destroy_calls cfg2 to_abandoned init ->
        subscription_of (state_after cfg2 to_abandoned) info = Some sub).
Proof.
  apply (X13_destroy_calls cfg2 to_abandoned (state_after cfg2 to_abandoned)
           (output_of cfg2 to_abandoned)).
  vm_compute. reflexivity.
Defined.
